(** * whisperx/asr.py: batched transcription and confidence filtering

    A shallow embedding of [src/whisperx/asr.py].  Python [float] values
    (scores, probabilities, times) are modelled as rationals [Q], with
    exact sums and comparisons for the scores and the double-precision
    product where a time becomes a sample index; Python [str] values as
    [string], the UTF-8 bytes of the text.  The
    trained models, the tokenizers and the VAD are functions given with
    the pipeline; the generator [transcribe] is a step function on the
    pipeline object and the frame of its suspended body. *)

From Stdlib Require Import List String Ascii Bool Arith ZArith QArith Qround.
From Stdlib Require Import Qpower Qabs Lia Lqa.
From Stdlib Require Floats.SpecFloat.
Import ListNotations.

Local Open Scope string_scope.
Local Open Scope Z_scope.

(** ** Python [str] operations used by the source *)

Module PyStr.

(** [s in text]: [s] occurs as a contiguous run of [text]. *)
Fixpoint contains (s text : string) : bool :=
  String.prefix s text ||
  match text with
  | EmptyString => false
  | String _ rest => contains s rest
  end.

Definition byte (c : ascii) : N := N_of_ascii c.

(** Number of bytes of the white-space code point at the head of [s],
    0 when [s] does not start with one.  The code points are those of
    [str.isspace]: U+0009..U+000D, U+001C..U+0020, U+0085, U+00A0,
    U+1680, U+2000..U+200A, U+2028, U+2029, U+202F, U+205F, U+3000. *)
Definition ws_len (s : string) : nat :=
  match s with
  | EmptyString => 0%nat
  | String a r1 =>
      let x := byte a in
      if ((9 <=? x) && (x <=? 13) || (28 <=? x) && (x <=? 32))%N then 1%nat
      else
        match r1 with
        | EmptyString => 0%nat
        | String b r2 =>
            let y := byte b in
            if ((x =? 194) && ((y =? 133) || (y =? 160)))%N then 2%nat
            else
              match r2 with
              | EmptyString => 0%nat
              | String c _ =>
                  let z := byte c in
                  if ((x =? 225) && (y =? 154) && (z =? 128)
                      || (x =? 226) && (y =? 128)
                         && ((128 <=? z) && (z <=? 138)
                             || (z =? 168) || (z =? 169) || (z =? 175))
                      || (x =? 226) && (y =? 129) && (z =? 159)
                      || (x =? 227) && (y =? 128) && (z =? 128))%N
                  then 3%nat else 0%nat
              end
        end
  end.

(** [skip] bytes of a white-space code point are still to be passed. *)
Fixpoint isspace_from (skip : nat) (s : string) : bool :=
  match s with
  | EmptyString => true
  | String _ rest =>
      match skip with
      | S k => isspace_from k rest
      | O => match ws_len s with
             | O => false
             | S k => isspace_from k rest
             end
      end
  end.

(** Every code point of [s] is white space (true for the empty string). *)
Definition all_space (s : string) : bool := isspace_from 0 s.

Fixpoint lstrip_from (skip : nat) (s : string) : string :=
  match s with
  | EmptyString => EmptyString
  | String _ rest =>
      match skip with
      | S k => lstrip_from k rest
      | O => match ws_len s with
             | O => s
             | S k => lstrip_from k rest
             end
      end
  end.

Fixpoint rstrip (s : string) : string :=
  match s with
  | EmptyString => EmptyString
  | String c rest => if all_space s then EmptyString else String c (rstrip rest)
  end.

(** [s.strip()] *)
Definition strip (s : string) : string := rstrip (lstrip_from 0 s).

(** [s.split()]: the maximal runs of non-white-space code points.
    [cur] is the run being read, reversed. *)
Fixpoint rev_string (acc s : string) : string :=
  match s with
  | EmptyString => acc
  | String c rest => rev_string (String c acc) rest
  end.

Definition flush (cur : string) (k : list string) : list string :=
  match cur with
  | EmptyString => k
  | _ => rev_string EmptyString cur :: k
  end.

Fixpoint split_from (skip : nat) (cur : string) (s : string) : list string :=
  match s with
  | EmptyString => flush cur []
  | String c rest =>
      match skip with
      | S k => split_from k cur rest
      | O => match ws_len s with
             | O => split_from 0 (String c cur) rest
             | S k => flush cur (split_from k EmptyString rest)
             end
      end
  end.

Definition split (s : string) : list string := split_from 0 EmptyString s.

(** [sep.join(l)] *)
Fixpoint join (sep : string) (l : list string) : string :=
  match l with
  | [] => EmptyString
  | [x] => x
  | x :: rest => x ++ sep ++ join sep rest
  end.

End PyStr.

(** ** Scores *)

Local Open Scope Q_scope.

Definition Qltb (a b : Q) : bool := negb (Qle_bool b a).

(** [for s in phrases: if s in text: avg_logprob -= p] *)
Fixpoint penalize (p : Q) (phrases : list string) (text : string) (avg : Q) : Q :=
  match phrases with
  | [] => avg
  | s :: rest =>
      penalize p rest text (if PyStr.contains s text then avg - p else avg)
  end.

Definition P_low : Q := 15 # 100.
Definition P_high : Q := 35 # 100.

(** The two penalty loops, low-severity list first. *)
Definition adjust (low high : list string) (text : string) (avg : Q) : Q :=
  penalize P_high high text (penalize P_low low text avg).

(** ** [WhisperModel.generate_segment_batched]: the filter of the
    faster-whisper branch (lines 76-107) *)

Module Batched.

Definition suppress_low : list string :=
  [ "Thank you"; "Thanks for"; "ike and "; "Bye."; "Bye!"; "Bye bye!";
    "lease sub"; "The end." ]%string.

Definition suppress_high : list string :=
  [ "ubscribe"; "my channel"; "the channel"; "our channel"; "ollow me on";
    "for watching"; "hank you for watching"; "for your viewing";
    "r viewing"; "Amara"; "next video"; "full video"; "ranslation by";
    "ranslated by"; "ee you next week" ]%string.

(** A row of [self.model.generate(...)]: the first hypothesis
    ([sequences_ids[0]], [scores[0]]) and [no_speech_prob]. *)
Record GenerationResult := {
  sequences_ids0 : list Z;
  scores0 : Q;
  no_speech_prob : Q
}.

(** Lines 85-87.  [length_penalty] is taken as a natural number (the
    default is 1), so that [seq_len ** length_penalty] is exact. *)
Definition avg_logprob (length_penalty : nat) (r : GenerationResult) : Q :=
  let seq_len := Z.of_nat (List.length (sequences_ids0 r)) in
  let cum_logprob := scores0 r * inject_Z (seq_len ^ Z.of_nat length_penalty) in
  cum_logprob / inject_Z (seq_len + 1).

(** [avg_logprob] after lines 90-95. *)
Definition adjusted (text : string) (avg : Q) : Q :=
  adjust suppress_low suppress_high text avg.

(** The condition of line 97, on the adjusted score. *)
Definition rejects (avg nsp : Q) (text : string) : bool :=
  Qltb (adjusted text avg) (-(1)) || Qltb (7 # 10) nsp.

(** One turn of the loop of lines 84-107 on the values of line 89: the
    texts it appends to [output] ([continue] appends nothing). *)
Definition contributes (avg nsp : Q) (text : string) : list string :=
  if rejects avg nsp text then [] else [text].

(** Lines 84-159: [text = [x['text'] for x in results]]. *)
Fixpoint filter_results (decode : list Z -> string) (length_penalty : nat)
    (results : list GenerationResult) : list string :=
  match results with
  | [] => []
  | r :: rest =>
      contributes (avg_logprob length_penalty r) (no_speech_prob r)
                  (decode (sequences_ids0 r))
      ++ filter_results decode length_penalty rest
  end.

End Batched.

(** ** [FasterWhisperPipeline._forward], [whisper.model.Whisper] branch:
    the filter of lines 293-342 *)

Module Forward.

Definition suppress_low : list string :=
  [ "Thanks for"; "ike and "; "Bye."; "Bye!"; "Bye bye!"; "lease sub";
    "The end." ]%string.

Definition suppress_high : list string :=
  [ "ubscribe"; "my channel"; "the channel"; "our channel"; "ollow me on";
    "for watching"; "hank you for watching"; "Hãy subscribe";
    "Ghiền Mì Gõ"; "không bỏ lỡ những video hấp dẫn";
    "kênh La La School" ]%string.

(** An entry of [result["segments"]] of [whisper]'s [transcribe]. *)
Record Segment := {
  text : string;
  avg_logprob : Q;
  no_speech_prob : Q;
  compression_ratio : Q
}.

(** [r["avg_logprob"]] after lines 321-326. *)
Definition adjusted (text : string) (avg : Q) : Q :=
  adjust suppress_low suppress_high text avg.

(** The condition of lines 328-331. *)
Definition rejects (r : Segment) : bool :=
  let a := adjusted (text r) (avg_logprob r) in
  (Qltb a (-(1 # 2)) && Qltb (compression_ratio r) 1)
  || (Qltb a (-(1 # 2)) && Qltb 2 (compression_ratio r))
  || Qltb (7 # 10) (no_speech_prob r)
  || String.eqb (PyStr.strip (text r)) "".

Definition contributes (r : Segment) : list string :=
  if rejects r then [] else [text r].

(** Lines 319-339: the accepted texts of one input. *)
Fixpoint accepted (result : list Segment) : list string :=
  match result with
  | [] => []
  | r :: rest => contributes r ++ accepted rest
  end.

(** Lines 340-341. *)
Definition join_output (output : list string) : string :=
  PyStr.join " " (PyStr.split (PyStr.join " " output)).

End Forward.

(** ** Python numbers and sequences *)

(** [int(x)]: the integer part, toward zero. *)
Definition py_int (x : Q) : Z := Z.quot (Qnum x) (Zpos (Qden x)).

(** [round(x)]: to the nearest integer, ties to even. *)
Definition py_round (x : Q) : Z :=
  let f := Qfloor x in
  match Qcompare (x - inject_Z f) (1 # 2) with
  | Lt => f
  | Gt => (f + 1)%Z
  | Eq => if Z.even f then f else (f + 1)%Z
  end.

(** [round(x, 3)] *)
Definition round3 (x : Q) : Q := Qmake (py_round (x * 1000)) 1000.

(** *** Floats

    A Python [float] is an IEEE 754 binary64 number.  A rational [x]
    stands for the double nearest to it, [fl64 x] (the rational itself
    when it is a double), and the product of two floats is the double
    nearest to the exact product: round to nearest, ties to even, 53
    significant bits, the last bit no lower than 2^-1074.  Overflow is
    left out: it takes a magnitude of 2^1024. *)

(** 2^k *)
Definition pow2 (k : Z) : Q := 2 ^ k.

(** The integer part of the base-2 logarithm of [x], for [0 < x]. *)
Definition Qlog2 (x : Q) : Z :=
  let k := (Z.log2 (Qnum x) - Z.log2 (Zpos (Qden x)))%Z in
  if Qle_bool (pow2 k) x then k else (k - 1)%Z.

(** The exponent of the last bit of the double nearest to [x]. *)
Definition ulp_exp (x : Q) : Z := Z.max (Qlog2 (Qabs x) - 52) (-1074).

(** The double nearest to [x]. *)
Definition fl64 (x : Q) : Q :=
  if Qeq_bool x 0 then 0
  else inject_Z (py_round (x / pow2 (ulp_exp x))) * pow2 (ulp_exp x).

(** The value of a finite double as the Standard Library's specification
    of IEEE 754 arithmetic writes it: sign, mantissa and exponent. *)
Definition SF2Q (f : SpecFloat.spec_float) : Q :=
  match f with
  | SpecFloat.S754_finite s m e =>
      (if s then -(1) else 1) * inject_Z (Zpos m) * pow2 e
  | _ => 0
  end.

(** A slice bound brought into [0, n], as Python does for [a[i:j]]. *)
Definition slice_bound (n i : Z) : Z :=
  if (i <? 0)%Z then Z.max 0 (i + n) else Z.min i n.

(** [a[f1:f2]] *)
Definition py_slice {A : Type} (a : list A) (f1 f2 : Z) : list A :=
  let n := Z.of_nat (List.length a) in
  let lo := slice_bound n f1 in
  let hi := slice_bound n f2 in
  firstn (Z.to_nat (hi - lo)) (skipn (Z.to_nat lo) a).

Definition str_slice (s : string) (f1 f2 : Z) : string :=
  string_of_list_ascii (py_slice (list_ascii_of_string s) f1 f2).

(** [a or b] on optional strings: [None] and the empty string are falsy. *)
Definition truthy (s : option string) : bool :=
  match s with
  | Some (String _ _) => true
  | _ => false
  end.

Definition py_or (a b : option string) : option string :=
  if truthy a then a else b.

(** [a == b] on optional strings. *)
Definition option_eqb (a b : option string) : bool :=
  match a, b with
  | Some x, Some y => String.eqb x y
  | None, None => true
  | _, _ => false
  end.

(** [list(set(l))]; the order of the result is left open by Python. *)
Definition py_list_set (l : list Z) : list Z := nodup Z.eq_dec l.

Inductive Exception :=
| IndexError
| AttributeError
| UnboundLocalError
| ValueError (msg : string).

(** ** The names imported from [.audio] *)

(** Modelled from the spec: [SAMPLE_RATE] is declared in [whisperx/audio.py];
    the spec gives the fixed sample rate of the waveform as 16 kHz. *)
Definition SAMPLE_RATE : Z := 16000%Z.

(** Modelled from the spec: [N_SAMPLES] is declared in [whisperx/audio.py];
    the spec gives the window as 30 seconds of audio. *)
Definition N_SAMPLES : Z := (30 * SAMPLE_RATE)%Z.

(** [int(t * SAMPLE_RATE)] for a float [t]: the product of the floats,
    cut toward zero.  [SAMPLE_RATE] is a whole number and a double. *)
Definition sample_index (t : Q) : Z :=
  py_int (fl64 (fl64 t * inject_Z SAMPLE_RATE)).

Definition Waveform := list Q.
Definition Features := list (list Q).

(** The two functions of [whisperx/audio.py] that [preprocess] and
    [detect_language] call; their bodies are not part of this file. *)
Class AudioModule := {
  pad_or_trim : Waveform -> Waveform;
  log_mel_spectrogram : Waveform -> nat -> Z -> Features
}.

(** ** Data *)

(** An entry of [vad_segments]. *)
Record AudioSegment := {
  seg_start : Q;
  seg_end : Q
}.

(** [out['text']]: a list of texts, or one text. *)
Inductive Text :=
| TextList (l : list string)
| TextStr (s : string).

Record SingleSegment := {
  sg_text : Text;
  sg_start : Q;
  sg_end : Q
}.

Record TranscriptionResult := {
  segments : list SingleSegment;
  language : option string
}.

(** The fields that [load_model] passes to [TranscriptionOptions]. *)
Record TranscriptionOptions := {
  beam_size : nat;
  best_of : nat;
  patience : Q;
  length_penalty : nat;
  repetition_penalty : Q;
  no_repeat_ngram_size : nat;
  temperatures : list Q;
  compression_ratio_threshold : option Q;
  log_prob_threshold : option Q;
  no_speech_threshold : option Q;
  condition_on_previous_text : bool;
  prompt_reset_on_temperature : Q;
  initial_prompt : option string;
  prefix : option string;
  suppress_blank : bool;
  suppress_tokens : list Z;
  without_timestamps : bool;
  max_initial_timestamp : Q;
  word_timestamps : bool;
  prepend_punctuations : string;
  append_punctuations : string;
  multilingual : bool;
  max_new_tokens : option nat;
  clip_timestamps : option string;
  hallucination_silence_threshold : option Q;
  hotwords : option string
}.

(** [replace(options, suppress_tokens=toks)] *)
Definition replace_suppress_tokens (o : TranscriptionOptions) (toks : list Z)
  : TranscriptionOptions :=
  {| beam_size := beam_size o;
     best_of := best_of o;
     patience := patience o;
     length_penalty := length_penalty o;
     repetition_penalty := repetition_penalty o;
     no_repeat_ngram_size := no_repeat_ngram_size o;
     temperatures := temperatures o;
     compression_ratio_threshold := compression_ratio_threshold o;
     log_prob_threshold := log_prob_threshold o;
     no_speech_threshold := no_speech_threshold o;
     condition_on_previous_text := condition_on_previous_text o;
     prompt_reset_on_temperature := prompt_reset_on_temperature o;
     initial_prompt := initial_prompt o;
     prefix := prefix o;
     suppress_blank := suppress_blank o;
     suppress_tokens := toks;
     without_timestamps := without_timestamps o;
     max_initial_timestamp := max_initial_timestamp o;
     word_timestamps := word_timestamps o;
     prepend_punctuations := prepend_punctuations o;
     append_punctuations := append_punctuations o;
     multilingual := multilingual o;
     max_new_tokens := max_new_tokens o;
     clip_timestamps := clip_timestamps o;
     hallucination_silence_threshold := hallucination_silence_threshold o;
     hotwords := hotwords o |}.

(** What the source reads of a tokenizer of faster-whisper.  [tok_task]
    is [self.tokenizer.task]: the token id of the task in a multilingual
    tokenizer, [None] otherwise. *)
Record Tokenizer := {
  language_code : string;
  tok_task : option Z;
  eot : nat;
  decode : list Z -> string
}.

(** The values of the variable [task] in lines 404-417: a task name, or
    what [self.tokenizer.task] holds. *)
Inductive Task :=
| TaskName (s : string)
| TaskId (i : Z)
| TaskNone.

(** [task or d] for the argument [task] of the call. *)
Definition task_or (t : option string) (d : Task) : Task :=
  match t with
  | Some (String c r) => TaskName (String c r)
  | _ => d
  end.

(** [self.tokenizer.task] *)
Definition stored_task (tok : Tokenizer) : Task :=
  match tok_task tok with
  | Some i => TaskId i
  | None => TaskNone
  end.

(** [task != self.tokenizer.task]: a string is equal neither to a token
    id nor to [None]. *)
Definition task_differs (t : Task) (stored : option Z) : bool :=
  match t, stored with
  | TaskName _, _ => true
  | TaskId i, Some j => negb (Z.eqb i j)
  | TaskNone, None => false
  | _, _ => true
  end.

(** [s.removeprefix(p)] *)
Definition removeprefix (p s : string) : string :=
  if String.prefix p s
  then String.substring (String.length p) (String.length s - String.length p)%nat s
  else s.

(** [any(c in "0123456789%$£" for c in token)] *)
Definition has_numeral_symbol (token : string) : bool :=
  existsb (fun c => PyStr.contains c token)
    [ "0"; "1"; "2"; "3"; "4"; "5"; "6"; "7"; "8"; "9"; "%"; "$"; "£" ]%string.

Definition find_numeral_symbol_tokens (tokenizer : Tokenizer) : list Z :=
  filter (fun i => has_numeral_symbol (removeprefix " " (decode tokenizer [i])))
         (map Z.of_nat (seq 0 (eot tokenizer))).

(** ** The three model classes

    The trained models are taken as given functions; each record holds
    what the source calls on an instance of the class. *)

(** [whisper.model.Whisper]: [transcribe(audio=..., beam_size=...,
    patience=..., length_penalty=...)["segments"]] with the fixed
    keyword arguments of lines 303-312. *)
Record Whisper := {
  whisper_transcribe : Waveform -> nat -> Q -> nat -> list Forward.Segment
}.

(** [HuggingfaceWhisperModel.transcribe], lines 187-220. *)
Record HuggingfaceWhisperModel := {
  hf_transcribe : list Waveform -> list string
}.

(** [WhisperModel] (faster-whisper):
    - [feature_size]: [feat_kwargs.get("feature_size")];
    - [new_tokenizer task language]:
      [faster_whisper.tokenizer.Tokenizer(self.model.hf_tokenizer,
       self.model.model.is_multilingual, task=task, language=language)],
      taken to return (for a multilingual model the constructor raises
      [ValueError] on a task that is no task name and on a language
      code that it does not know);
    - [generate tokenizer options features]: the rows of
      [self.model.generate] of lines 52-74 for this prompt and batch;
    - [detect_top segment]: [results[0][0]] of line 465. *)
Record WhisperModel := {
  feature_size : option nat;
  new_tokenizer : Task -> option string -> Tokenizer;
  generate : Tokenizer -> TranscriptionOptions -> list Features
             -> list Batched.GenerationResult;
  detect_top : Features -> string * Q
}.

Inductive Model :=
| IsWhisper (m : Whisper)
| IsHuggingfaceWhisperModel (m : HuggingfaceWhisperModel)
| IsWhisperModel (m : WhisperModel).

(** The attributes of the pipeline that the source reads or writes after
    [__init__].  [vad] is [self.vad_model] with [merge_chunks]:
    [vad waveform chunk_size] is the list that line 398 binds to
    [vad_segments].  [call_count] is set at line 251 and counted up by
    [Pipeline.__call__].  The attributes that nothing writes after
    [__init__] ([device], [framework], [_num_workers], the three
    parameter dictionaries, [_vad_params]) are left out. *)
Record FasterWhisperPipeline := {
  model : Model;
  tokenizer : option Tokenizer;
  options : TranscriptionOptions;
  preset_language : option string;
  suppress_numerals : bool;
  _batch_size : option nat;
  call_count : nat;
  vad : Waveform -> nat -> list AudioSegment
}.

Definition set_tokenizer (p : FasterWhisperPipeline) (t : option Tokenizer)
  : FasterWhisperPipeline :=
  {| model := model p; tokenizer := t; options := options p;
     preset_language := preset_language p;
     suppress_numerals := suppress_numerals p;
     _batch_size := _batch_size p; call_count := call_count p;
     vad := vad p |}.

Definition set_options (p : FasterWhisperPipeline) (o : TranscriptionOptions)
  : FasterWhisperPipeline :=
  {| model := model p; tokenizer := tokenizer p; options := o;
     preset_language := preset_language p;
     suppress_numerals := suppress_numerals p;
     _batch_size := _batch_size p; call_count := call_count p;
     vad := vad p |}.

(** [self.call_count += 1], in [Pipeline.__call__] before it builds the
    iterator. *)
Definition count_call (p : FasterWhisperPipeline) : FasterWhisperPipeline :=
  {| model := model p; tokenizer := tokenizer p; options := options p;
     preset_language := preset_language p;
     suppress_numerals := suppress_numerals p;
     _batch_size := _batch_size p; call_count := S (call_count p);
     vad := vad p |}.

(** [WhisperModel.generate_segment_batched], lines 37-159. *)
Definition generate_segment_batched (m : WhisperModel) (features : list Features)
    (tokenizer : Tokenizer) (options : TranscriptionOptions) : list string :=
  let results := generate m tokenizer options features in
  Batched.filter_results (decode tokenizer) (length_penalty options) results.

(** What [preprocess] hands on. *)
Inductive ModelInput :=
| Samples (a : Waveform)
| Mel (f : Features).

(** [x['inputs']] read as samples, or as features.  [preprocess] and
    [_forward] branch on the same class, so the second case of each is
    never met. *)
Definition as_samples (x : ModelInput) : Waveform :=
  match x with Samples a => a | Mel _ => [] end.

Definition as_mel (x : ModelInput) : Features :=
  match x with Mel f => f | Samples _ => [] end.

Section Pipeline.

Context {audio_module : AudioModule}.

(** Lines 382-386: the slices that the generator [data] yields. *)
Definition data (audio : Waveform) (segments : list AudioSegment)
  : list Waveform :=
  map (fun seg =>
         let f1 := sample_index (seg_start seg) in
         let f2 := sample_index (seg_end seg) in
         py_slice audio f1 f2)
      segments.

(** Lines 275-289. *)
Definition preprocess (p : FasterWhisperPipeline) (audio : Waveform)
  : ModelInput :=
  match model p with
  | IsWhisper _ => Samples (pad_or_trim audio)
  | IsHuggingfaceWhisperModel _ => Samples audio
  | IsWhisperModel m =>
      let n_mels := match feature_size m with Some k => k | None => 80%nat end in
      Mel (log_mel_spectrogram audio n_mels
             (N_SAMPLES - Z.of_nat (List.length audio))%Z)
  end.

(** Lines 291-347: [outputs] for one batch.  In the third branch the
    prompt is built from [self.tokenizer], which must be set. *)
Definition _forward (p : FasterWhisperPipeline) (model_inputs : list ModelInput)
  : Exception + list string :=
  match model p with
  | IsWhisper m =>
      inr (map (fun x =>
                  let result :=
                    whisper_transcribe m (as_samples x)
                      (beam_size (options p)) (patience (options p))
                      (length_penalty (options p)) in
                  Forward.join_output (Forward.accepted result))
               model_inputs)
  | IsHuggingfaceWhisperModel m =>
      inr (hf_transcribe m (map as_samples model_inputs))
  | IsWhisperModel m =>
      match tokenizer p with
      | None => inl AttributeError
      | Some tok =>
          inr (generate_segment_batched m (map as_mel model_inputs) tok (options p))
      end
  end.

(** ** The iterator chain of [get_iterator] (lines 352-374)

    [torch.utils.data.DataLoader] and
    [transformers.pipelines.pt_utils.PipelineIterator] as those
    libraries define them. *)

(** The loader: batches of [n] items in order, the last one shorter when
    the items run out.  [cur] is the batch being filled, reversed. *)
Fixpoint collate {A : Type} (n : nat) (cur : list A) (l : list A)
  : list (list A) :=
  match l with
  | [] => match cur with [] => [] | _ => [rev cur] end
  | x :: rest =>
      if (List.length (x :: cur) =? n)%nat
      then rev (x :: cur) :: collate n [] rest
      else collate n (x :: cur) rest
  end.

(** [PipelineIterator] without [loader_batch_size]: every processed batch
    is one item. *)
Fixpoint no_unroll (processed : list (Exception + list string))
  : list Text * option Exception :=
  match processed with
  | [] => ([], None)
  | inl e :: _ => ([], Some e)
  | inr l :: rest =>
      let (items, e) := no_unroll rest in (TextList l :: items, e)
  end.

(** [PipelineIterator] with [loader_batch_size = lbs]: the observed size
    of a batch is the length of its text list; a smaller positive one
    replaces [lbs] from then on; the items [0 .. lbs-1] of the batch are
    handed on one by one, and item 0 of an empty list is an
    [IndexError]. *)
Fixpoint unroll (lbs : nat) (processed : list (Exception + list string))
  : list Text * option Exception :=
  match processed with
  | [] => ([], None)
  | inl e :: _ => ([], Some e)
  | inr l :: rest =>
      let observed := List.length l in
      let lbs' := if ((0 <? observed) && (observed <? lbs))%nat
                  then observed else lbs in
      match l with
      | [] => ([], Some IndexError)
      | _ =>
          let (items, e) := unroll lbs' rest in
          ((map TextStr (firstn lbs' l) ++ items)%list, e)
      end
  end.

(** [self.__call__(inputs, batch_size=batch_size)] on a generator: the
    items of the final iterator and the exception that ends them, if any.
    A missing [batch_size] falls back on [self._batch_size], then on 1;
    the loader refuses a batch size of 0. *)
Definition call_pipeline (p : FasterWhisperPipeline) (inputs : list Waveform)
    (batch_size : option nat) : Exception + (list Text * option Exception) :=
  let bs := match batch_size with
            | Some n => n
            | None => match _batch_size p with Some n => n | None => 1%nat end
            end in
  match bs with
  | O => inl (ValueError "batch_size should be a positive integer value")
  | S _ =>
      let loader := collate bs [] (map (preprocess p) inputs) in
      let processed := map (_forward p) loader in
      inr (if (bs =? 1)%nat then no_unroll processed else unroll bs processed)
  end.

(** ** [FasterWhisperPipeline.detect_language], lines 456-468 *)
Definition detect_language (m : WhisperModel) (audio : Waveform) : string :=
  let n := Z.of_nat (List.length audio) in
  let n_mels := match feature_size m with Some k => k | None => 80%nat end in
  let segment :=
    log_mel_spectrogram (py_slice audio 0 N_SAMPLES) n_mels
      (if (N_SAMPLES <=? n)%Z then 0%Z else (N_SAMPLES - n)%Z) in
  let language_token := fst (detect_top m segment) in
  str_slice language_token 2 (-2).

(** ** [FasterWhisperPipeline.transcribe], lines 376-454

    [transcribe] is a generator: its body runs between two calls of
    [next], and stops at [yield text]. *)

(** The arguments of a call ([audio] as an array). *)
Record Args := {
  audio : Waveform;
  batch_size : option nat;
  arg_language : option string;
  task : option string;
  chunk_size : nat
}.

(** A call that passes [audio] only, with the defaults of line 377. *)
Definition default_args (a : Waveform) : Args :=
  {| audio := a; batch_size := None; arg_language := Some "vi";
     task := Some "transcribe"; chunk_size := 30 |}.

(** The local variables of the suspended body.  [f_items] and [f_error]
    are what the iterator of line 430 still has to give; [f_detections]
    counts the calls of [detect_language] made so far. *)
Record Frame := {
  f_vad_segments : list AudioSegment;
  f_language : option string;
  f_previous_suppress_tokens : option (list Z);
  f_batch_size : option nat;
  f_segments : list SingleSegment;
  f_idx : nat;
  f_items : list Text;
  f_error : option Exception;
  f_detections : nat
}.

(** Lines 404-417: [language], the calls of [detect_language], and the
    new value of [self.tokenizer]. *)
Definition resolve_language (p : FasterWhisperPipeline) (a : Args)
  : option string * nat * option Tokenizer :=
  match model p with
  | IsWhisperModel m =>
      match tokenizer p with
      | None =>
          let '(language, calls) :=
            if truthy (arg_language a) then (arg_language a, 0%nat)
            else (Some (detect_language m (audio a)), 1%nat) in
          let task := task_or (task a) (TaskName "transcribe") in
          (language, calls, Some (new_tokenizer m task language))
      | Some tok =>
          let language := py_or (arg_language a) (Some (language_code tok)) in
          let task := task_or (task a) (stored_task tok) in
          if task_differs task (tok_task tok)
             || negb (option_eqb language (Some (language_code tok)))
          then (language, 0%nat, Some (new_tokenizer m task language))
          else (language, 0%nat, Some tok)
      end
  | _ => (arg_language a, 0%nat, tokenizer p)
  end.

(** The bytes 10xxxxxx at the head of [s]: the rest of a code point
    whose first byte has been read. *)
Fixpoint continuation (s : string) : string :=
  match s with
  | EmptyString => EmptyString
  | String c rest =>
      if ((128 <=? PyStr.byte c) && (PyStr.byte c <=? 191))%N
      then String c (continuation rest)
      else EmptyString
  end.

(** [text[0]]: the first entry of a list, the first character of a
    string. *)
Definition index0 (t : Text) : Exception + Text :=
  match t with
  | TextList (x :: _) => inr (TextStr x)
  | TextList [] => inl IndexError
  | TextStr (String c rest) => inr (TextStr (String c (continuation rest)))
  | TextStr EmptyString => inl IndexError
  end.

(** [batch_size in [0, 1, None]] *)
Definition per_sample (batch_size : option nat) : bool :=
  match batch_size with
  | None | Some 0%nat | Some 1%nat => true
  | _ => false
  end.

(** Lines 379-430, up to the first turn of the loop. *)
Definition begin (p : FasterWhisperPipeline) (a : Args)
  : FasterWhisperPipeline * (Exception + Frame) :=
  let vad_segments := vad p (audio a) (chunk_size a) in
  let '(language, calls, tok) := resolve_language p a in
  let p1 := set_tokenizer p tok in
  let step2 :=
    if suppress_numerals p1 then
      match tokenizer p1 with
      | None => inl AttributeError
      | Some t =>
          let previous_suppress_tokens := suppress_tokens (options p1) in
          let numeral_symbol_tokens := find_numeral_symbol_tokens t in
          let new_suppressed_tokens :=
            py_list_set (numeral_symbol_tokens ++ suppress_tokens (options p1)) in
          inr (set_options p1 (replace_suppress_tokens (options p1) new_suppressed_tokens),
               Some previous_suppress_tokens)
      end
    else inr (p1, None) in
  match step2 with
  | inl e => (p1, inl e)
  | inr (p2, previous) =>
      let batch_size :=
        match batch_size a with
        | Some (S n) => Some (S n)
        | _ => _batch_size p2
        end in
      let p3 := count_call p2 in
      match call_pipeline p3 (data (audio a) vad_segments) batch_size with
      | inl e => (p3, inl e)
      | inr (items, err) =>
          (p3, inr {| f_vad_segments := vad_segments;
                      f_language := language;
                      f_previous_suppress_tokens := previous;
                      f_batch_size := batch_size;
                      f_segments := [];
                      f_idx := 0;
                      f_items := items;
                      f_error := err;
                      f_detections := calls |})
      end
  end.

Inductive Generator :=
| Created (a : Args)
| AtYield (f : Frame)
| Finished.

(** What a call of [next] gives: a yielded text, the value of [return]
    (carried by [StopIteration]), an exception, or plain [StopIteration]
    from a finished generator. *)
Inductive Event :=
| Yield (t : Text)
| Return (r : TranscriptionResult)
| Raise (e : Exception)
| StopIteration.

(** Lines 446-454. *)
Definition finish (p : FasterWhisperPipeline) (f : Frame)
  : FasterWhisperPipeline * Generator * Event :=
  let p1 := match preset_language p with
            | None => set_tokenizer p None
            | Some _ => p
            end in
  if suppress_numerals p1 then
    match f_previous_suppress_tokens f with
    | None => (p1, Finished, Raise UnboundLocalError)
    | Some previous =>
        (set_options p1 (replace_suppress_tokens (options p1) previous),
         Finished,
         Return {| segments := f_segments f; language := f_language f |})
    end
  else
    (p1, Finished,
     Return {| segments := f_segments f; language := f_language f |}).

(** Lines 430-444: the next turn of the loop, or the end of the loop. *)
Definition resume (p : FasterWhisperPipeline) (f : Frame)
  : FasterWhisperPipeline * Generator * Event :=
  match f_items f with
  | out :: items =>
      match (if per_sample (f_batch_size f) then index0 out else inr out) with
      | inl e => (p, Finished, Raise e)
      | inr text =>
          match nth_error (f_vad_segments f) (f_idx f) with
          | None => (p, Finished, Raise IndexError)
          | Some seg =>
              let segment :=
                {| sg_text := text;
                   sg_start := round3 (seg_start seg);
                   sg_end := round3 (seg_end seg) |} in
              (p,
               AtYield {| f_vad_segments := f_vad_segments f;
                          f_language := f_language f;
                          f_previous_suppress_tokens := f_previous_suppress_tokens f;
                          f_batch_size := f_batch_size f;
                          f_segments := (f_segments f ++ [segment])%list;
                          f_idx := S (f_idx f);
                          f_items := items;
                          f_error := f_error f;
                          f_detections := f_detections f |},
               Yield text)
          end
      end
  | [] =>
      match f_error f with
      | Some e => (p, Finished, Raise e)
      | None => finish p f
      end
  end.

(** One call of [next] on the generator. *)
Definition next (p : FasterWhisperPipeline) (g : Generator)
  : FasterWhisperPipeline * Generator * Event :=
  match g with
  | Created a =>
      match begin p a with
      | (p', inl e) => (p', Finished, Raise e)
      | (p', inr f) => resume p' f
      end
  | AtYield f => resume p f
  | Finished => (p, Finished, StopIteration)
  end.

(** [k] calls of [next], fewer when the generator finishes before: the
    pipeline and generator they leave, and the events in order. *)
Fixpoint pulls (k : nat) (p : FasterWhisperPipeline) (g : Generator)
  : FasterWhisperPipeline * Generator * list Event :=
  match k with
  | O => (p, g, [])
  | S k' =>
      match g with
      | Finished => (p, g, [])
      | _ =>
          let '(p1, g1, ev) := next p g in
          let '(p2, g2, evs) := pulls k' p1 g1 in
          (p2, g2, ev :: evs)
      end
  end.

(** A consumer that reads the generator to its end: one call of [next]
    for every VAD segment and one more. *)
Definition transcribe (p : FasterWhisperPipeline) (a : Args)
  : FasterWhisperPipeline * Generator * list Event :=
  pulls (S (List.length (vad p (audio a) (chunk_size a)))) p (Created a).

(** A consumer that reads [k] texts and then drops the generator.  The
    body has no [try]/[finally] and no [with]; closing it runs no code. *)
Definition transcribe_abandoned (k : nat) (p : FasterWhisperPipeline) (a : Args)
  : FasterWhisperPipeline :=
  fst (fst (pulls k p (Created a))).

End Pipeline.

(** ** [load_model], lines 471-589 *)

(** The one-character string holding a double quote. *)
Definition dquote : string := String (ascii_of_nat 34) EmptyString.

(** [s.endswith(suffix)] *)
Definition endswith (s suffix : string) : bool :=
  let n := String.length s in
  let k := String.length suffix in
  (k <=? n)%nat && String.eqb (String.substring (n - k) k s) suffix.



(** The entries of [asr_options]: one optional value for each key of
    [default_asr_options]. *)
Record AsrOptions := {
  o_beam_size : option nat;
  o_best_of : option nat;
  o_patience : option Q;
  o_length_penalty : option nat;
  o_repetition_penalty : option Q;
  o_no_repeat_ngram_size : option nat;
  o_temperatures : option (list Q);
  o_compression_ratio_threshold : option (option Q);
  o_log_prob_threshold : option (option Q);
  o_no_speech_threshold : option (option Q);
  o_condition_on_previous_text : option bool;
  o_prompt_reset_on_temperature : option Q;
  o_initial_prompt : option (option string);
  o_prefix : option (option string);
  o_suppress_blank : option bool;
  o_suppress_tokens : option (list Z);
  o_without_timestamps : option bool;
  o_max_initial_timestamp : option Q;
  o_word_timestamps : option bool;
  o_prepend_punctuations : option string;
  o_append_punctuations : option string;
  o_multilingual : option bool;
  o_suppress_numerals : option bool;
  o_max_new_tokens : option (option nat);
  o_clip_timestamps : option (option string);
  o_hallucination_silence_threshold : option (option Q);
  o_hotwords : option (option string)
}.

Definition or_default {A : Type} (o : option A) (d : A) : A :=
  match o with Some v => v | None => d end.

(** The dictionary of lines 523-551, updated as in lines 553-554 for
    the keys that it already holds, without the key
    ["suppress_numerals"]; [is_multilingual] stands for the value of
    line 545.  The examples take their options from it. *)
Definition asr_defaults (is_multilingual : bool) (u : option AsrOptions)
  : TranscriptionOptions :=
  let get {A : Type} (f : AsrOptions -> option A) (d : A) : A :=
    match u with Some o => or_default (f o) d | None => d end in
  {| beam_size := get o_beam_size 5%nat;
     best_of := get o_best_of 5%nat;
     patience := get o_patience 1;
     length_penalty := get o_length_penalty 1%nat;
     repetition_penalty := get o_repetition_penalty 1;
     no_repeat_ngram_size := get o_no_repeat_ngram_size 0%nat;
     temperatures :=
       get o_temperatures [0; 2 # 10; 4 # 10; 6 # 10; 8 # 10; 1];
     compression_ratio_threshold :=
       get o_compression_ratio_threshold (Some (24 # 10));
     log_prob_threshold := get o_log_prob_threshold (Some (-(1)));
     no_speech_threshold := get o_no_speech_threshold (Some (6 # 10));
     condition_on_previous_text := get o_condition_on_previous_text false;
     prompt_reset_on_temperature := get o_prompt_reset_on_temperature (5 # 10);
     initial_prompt := get o_initial_prompt None;
     prefix := get o_prefix None;
     suppress_blank := get o_suppress_blank true;
     suppress_tokens := get o_suppress_tokens [(-1)%Z];
     without_timestamps := get o_without_timestamps true;
     max_initial_timestamp := get o_max_initial_timestamp 0;
     word_timestamps := get o_word_timestamps false;
     prepend_punctuations :=
       get o_prepend_punctuations (dquote ++ "'“¿([{-");
     append_punctuations :=
       get o_append_punctuations (dquote ++ "'.。,，!！?？:：”)]}、");
     multilingual := get o_multilingual is_multilingual;
     max_new_tokens := get o_max_new_tokens None;
     clip_timestamps := get o_clip_timestamps None;
     hallucination_silence_threshold :=
       get o_hallucination_silence_threshold None;
     hotwords := get o_hotwords None |}.

(** [whisper.load_model] and [AutoTokenizer.from_pretrained], taken as
    given and taken to return.  The Hugging Face tokenizer is another
    class than the tokenizer of faster-whisper: it has [decode] and no
    [eot]. *)
Record HFTokenizer := {
  hf_decode : list Z -> string
}.

Class Runtime := {
  whisper_load_model : string -> Whisper;
  AutoTokenizer_from_pretrained : string -> HFTokenizer
}.

(** [model.model] on a [whisper.model.Whisper]: the class has [dims],
    [encoder], [decoder] and its methods, and no attribute [model];
    [torch.nn.Module.__getattr__] raises [AttributeError] for a name
    that is no parameter, buffer or submodule.  The lookup has no value:
    the type of its result is empty. *)
Inductive NoValue : Type := .

Definition Whisper_model (m : Whisper) : Exception + NoValue :=
  inl AttributeError.

(** [load_model].  The dictionary display of lines 523-551 evaluates its
    values in order, and the value of ["multilingual"], line 545, is
    [model.model.is_multilingual] on the object that [whisper.load_model]
    returned: the call ends there, before it reads [asr_options]
    ([AsrDict] is the type of that dictionary), [vad_model],
    [vad_method] or [vad_options]. *)
Definition load_model {rt : Runtime} {AsrDict : Type}
    (whisper_arch device : string)
    (asr_options : option AsrDict)
    (language : option string)
    (vad_model : option (Waveform -> nat -> list AudioSegment))
    (vad_method : option string)
    (vad_options : option (list (string * Q)))
  : Exception + FasterWhisperPipeline :=
  let language := if endswith whisper_arch ".en" then Some "en" else language in
  let model := whisper_load_model whisper_arch in
  let tokenizer := AutoTokenizer_from_pretrained "openai/whisper-large-v3" in
  match Whisper_model model with
  | inl e => inl e
  | inr v => match v with end
  end.

(** ** The statements of the specification that the code is compared with *)

Module Spec.

(** The reject condition of the specification, on the score after the
    phrase penalties; [cr] is the compression ratio when there is one. *)
Definition rejects (avg nsp : Q) (cr : option Q) (text : string) : Prop :=
  avg < -(1)
  \/ 7 # 10 < nsp
  \/ (exists c, cr = Some c /\ avg < -(1 # 2) /\ (c < 1 \/ 2 < c))
  \/ PyStr.strip text = "".

(** The slices of the specification: both bounds rounded to the nearest
    sample. *)
Definition data (audio : Waveform) (segments : list AudioSegment)
  : list Waveform :=
  map (fun seg =>
         py_slice audio
           (py_round (fl64 (fl64 (seg_start seg) * inject_Z SAMPLE_RATE)))
           (py_round (fl64 (fl64 (seg_end seg) * inject_Z SAMPLE_RATE))))
      segments.

End Spec.

(** ** Concrete pipelines for the examples *)

Module Demo.

(** Stand-ins for the two functions of [whisperx/audio.py]: the models
    below only look at the first sample of what they are given. *)
#[export] Instance audio_module : AudioModule :=
  {| pad_or_trim := fun w => w;
     log_mel_spectrogram := fun w _ _ => [w] |}.

Definition silent (w : Waveform) : bool :=
  match w with
  | [] => true
  | x :: _ => Qeq_bool x 0
  end.

(** Sixteen samples of silence, then sixteen of signal: 1 ms each. *)
Definition wave : Waveform := (repeat 0 16 ++ repeat 1 16)%list.

(** Thirty-two samples of signal. *)
Definition speech : Waveform := repeat 1 32.

Definition vad2 (_ : Waveform) (_ : nat) : list AudioSegment :=
  [ {| seg_start := 0; seg_end := 1 # 1000 |};
    {| seg_start := 1 # 1000; seg_end := 2 # 1000 |} ].

Definition token_text (i : Z) : string :=
  match i with
  | 0%Z => "xin"
  | 1%Z => " chào"
  | 2%Z => " 1"
  | 3%Z => "%"
  | _ => ""
  end.

Definition decode_tokens (ids : list Z) : string :=
  String.concat "" (map token_text ids).

(** The token id of a task name. *)
Definition task_id (task : option string) : option Z :=
  match task with
  | Some s =>
      if String.eqb s "translate" then Some 50358%Z
      else if String.eqb s "transcribe" then Some 50359%Z
      else None
  | None => None
  end.

Definition tok (task language : option string) : Tokenizer :=
  {| language_code := or_default language "en";
     tok_task := task_id task;
     eot := 4;
     decode := decode_tokens |}.

Definition make_tokenizer (task : Task) (language : option string)
  : Tokenizer :=
  tok (match task with TaskName s => Some s | _ => None end) language.

(** A faster-whisper model that scores silence low. *)
Definition faster : WhisperModel :=
  {| feature_size := None;
     new_tokenizer := make_tokenizer;
     generate := fun _ _ features =>
       map (fun f =>
              if silent (List.concat f)
              then {| Batched.sequences_ids0 := [0%Z];
                      Batched.scores0 := -(3);
                      Batched.no_speech_prob := 1 # 10 |}
              else {| Batched.sequences_ids0 := [0%Z; 1%Z];
                      Batched.scores0 := -(3 # 10);
                      Batched.no_speech_prob := 1 # 10 |})
           features;
     detect_top := fun _ => ("<|en|>", 9 # 10) |}.

(** A [whisper] model that returns one segment for signal, none for
    silence. *)
Definition whisper : Whisper :=
  {| whisper_transcribe := fun w _ _ _ =>
       if silent w then []
       else [ {| Forward.text := " xin chào";
                 Forward.avg_logprob := -(2 # 10);
                 Forward.no_speech_prob := 1 # 10;
                 Forward.compression_ratio := 3 # 2 |} ] |}.

Definition faster_pipeline : FasterWhisperPipeline :=
  {| model := IsWhisperModel faster;
     tokenizer := None;
     options := asr_defaults true None;
     preset_language := None;
     suppress_numerals := false;
     _batch_size := None;
     call_count := 0;
     vad := vad2 |}.

Definition whisper_pipeline : FasterWhisperPipeline :=
  {| model := IsWhisper whisper;
     tokenizer := Some (tok (Some "transcribe") (Some "vi"));
     options := asr_defaults true None;
     preset_language := Some "vi";
     suppress_numerals := true;
     _batch_size := None;
     call_count := 0;
     vad := vad2 |}.

(** [transcribe(wave, batch_size=bs)] and
    [transcribe(speech, language=lang)]. *)
Definition with_batch_size (bs : nat) : Args :=
  {| audio := wave; batch_size := Some bs; arg_language := Some "vi";
     task := Some "transcribe"; chunk_size := 30 |}.

Definition with_language (lang : option string) : Args :=
  {| audio := speech; batch_size := None; arg_language := lang;
     task := Some "transcribe"; chunk_size := 30 |}.

(** What [whisper_pipeline] returns for [wave]. *)
Definition whisper_result : TranscriptionResult :=
  {| segments :=
       [ {| sg_text := TextStr ""; sg_start := 0 # 1000; sg_end := 1 # 1000 |};
         {| sg_text := TextStr "xin chào"; sg_start := 1 # 1000;
            sg_end := 2 # 1000 |} ];
     language := Some "vi" |}.

End Demo.

(** ** Definitions used in the statements *)

(** The listed phrases that occur in [text]. *)
Definition matching (phrases : list string) (text : string) : list string :=
  filter (fun s => PyStr.contains s text) phrases.

(** How many listed phrases occur in [text], as a rational. *)
Definition hits (phrases : list string) (text : string) : Q :=
  inject_Z (Z.of_nat (List.length (matching phrases text))).

(** The calls of [detect_language] that a call of [transcribe] makes. *)
Definition detect_language_calls {audio_module : AudioModule}
    (p : FasterWhisperPipeline) (a : Args) : nat :=
  snd (fst (resolve_language p a)).

(** The text that the [whisper] branch of [_forward] gives for the slice
    of one VAD segment. *)
Definition whisper_text {audio_module : AudioModule}
    (p : FasterWhisperPipeline) (m : Whisper) (audio : Waveform)
    (seg : AudioSegment) : string :=
  let w := py_slice audio (sample_index (seg_start seg))
                          (sample_index (seg_end seg)) in
  Forward.join_output
    (Forward.accepted
       (whisper_transcribe m (pad_or_trim w) (beam_size (options p))
          (patience (options p)) (length_penalty (options p)))).

(** The output segment of one VAD segment and its text. *)
Definition output_segment (text : string) (seg : AudioSegment) : SingleSegment :=
  {| sg_text := TextStr text;
     sg_start := round3 (seg_start seg);
     sg_end := round3 (seg_end seg) |}.

(** Batches as the loader makes them: all of [n] items, the last one of
    1 to [n] items. *)
Fixpoint loader_batches {A : Type} (n : nat) (batches : list (list A)) : Prop :=
  match batches with
  | [] => True
  | b :: rest =>
      match rest with
      | [] => (1 <= List.length b <= n)%nat
      | _ => List.length b = n /\ loader_batches n rest
      end
  end.

(** ** The rest of the pipeline class *)

(** [d.get(k)] on a [dict] with string keys. *)
Fixpoint dict_get {V : Type} (d : list (string * V)) (k : string) : option V :=
  match d with
  | [] => None
  | (k', v) :: rest => if String.eqb k' k then Some v else dict_get rest k
  end.

(** [KeyError(key)] *)
Inductive KeyError := MissingKey (key : string).

(** [_sanitize_parameters], lines 269-273, on its keyword arguments:
    the three dictionaries it returns, or the [KeyError] of the lookup
    of "maybe_arg". *)
Definition _sanitize_parameters {V : Type} (kwargs : list (string * V))
  : KeyError + (list (string * V) * list (string * V) * list (string * V)) :=
  match dict_get kwargs "tokenizer" with
  | Some _ =>
      match dict_get kwargs "maybe_arg" with
      | Some v => inr ([("maybe_arg", v)], [], [])
      | None => inl (MissingKey "maybe_arg")
      end
  | None => inr ([], [], [])
  end.

(** [postprocess], lines 349-350. *)
Definition postprocess {A : Type} (model_outputs : A) : A := model_outputs.


(** The pipeline as the first part of the body of [transcribe] leaves
    it, with the tokenizer and the options of the call. *)
Definition prepared {audio_module : AudioModule}
    (p : FasterWhisperPipeline) (a : Args) : FasterWhisperPipeline :=
  fst (begin p a).




(** The features that [detect_language] hands to the model, line 460. *)
Definition detection_input {audio_module : AudioModule}
    (m : WhisperModel) (audio : Waveform) : Features :=
  let n := Z.of_nat (List.length audio) in
  let n_mels := match feature_size m with Some k => k | None => 80%nat end in
  log_mel_spectrogram (py_slice audio 0 N_SAMPLES) n_mels
    (if (N_SAMPLES <=? n)%Z then 0%Z else (N_SAMPLES - n)%Z).

(** The texts among the events of a run, in order. *)
Fixpoint yielded (evs : list Event) : list Text :=
  match evs with
  | [] => []
  | Yield t :: rest => t :: yielded rest
  | _ :: rest => yielded rest
  end.

(** The output segments go with the VAD segments by index and carry
    their rounded times. *)
Definition aligned (V : list AudioSegment) (S0 : list SingleSegment) : Prop :=
  forall i s, nth_error S0 i = Some s ->
    exists v, nth_error V i = Some v
              /\ sg_start s = round3 (seg_start v)
              /\ sg_end s = round3 (seg_end v).

(** More pipelines for the examples. *)
Module DemoRuntime.

(** A [whisper] pipeline that suppresses numerals and has no tokenizer. *)
Definition no_tokenizer : FasterWhisperPipeline :=
  set_tokenizer Demo.whisper_pipeline None.

(** A [whisper] pipeline that suppresses numerals and was built
    without a language. *)
Definition multilingual : FasterWhisperPipeline :=
  {| model := IsWhisper Demo.whisper;
     tokenizer := Some (Demo.tok (Some "transcribe") (Some "vi"));
     options := asr_defaults true None;
     preset_language := None;
     suppress_numerals := true;
     _batch_size := None;
     call_count := 0;
     vad := Demo.vad2 |}.



End DemoRuntime.

(** * Properties *)

(** ** Comparisons and substring search *)

Lemma Qltb_lt (a b : Q) : Qltb a b = true <-> a < b.
Proof.
  unfold Qltb. rewrite negb_true_iff.
  split; intro H.
  - apply Qnot_le_lt. intro Hle. apply Qle_bool_iff in Hle. congruence.
  - destruct (Qle_bool b a) eqn:E; [| reflexivity].
    apply Qle_bool_iff in E. exfalso. exact (Qlt_not_le _ _ H E).
Qed.

Lemma Qltb_ge (a b : Q) : Qltb a b = false <-> b <= a.
Proof.
  split; intro H.
  - apply Qnot_lt_le. intro Hlt. apply Qltb_lt in Hlt. congruence.
  - destruct (Qltb a b) eqn:E; [| reflexivity].
    apply Qltb_lt in E. exfalso. exact (Qlt_not_le _ _ E H).
Qed.

Lemma prefix_app (s text : string) :
  String.prefix s text = true <-> exists post, text = (s ++ post)%string.
Proof.
  revert text. induction s as [| c s IH]; intros text.
  - destruct text; simpl; (split; [intros _; eexists; reflexivity | reflexivity]).
  - destruct text as [| d text]; simpl.
    + split; [discriminate | intros [post H]; discriminate].
    + destruct (Ascii.ascii_dec c d) as [-> | Hne].
      * rewrite IH. split; intros [post H]; exists post.
        -- now rewrite H.
        -- now inversion H.
      * split; [discriminate |].
        intros [post H]. inversion H. congruence.
Qed.

Lemma contains_nil (s : string) :
  PyStr.contains s EmptyString = String.prefix s EmptyString.
Proof. destruct s; reflexivity. Qed.

Lemma contains_cons (s : string) (d : ascii) (text : string) :
  PyStr.contains s (String d text)
  = String.prefix s (String d text) || PyStr.contains s text.
Proof. reflexivity. Qed.

(** [s in text] holds exactly when [text] is some [pre], then the bytes
    of [s] unchanged, then some [post]. *)
Lemma contains_spec (s text : string) :
  PyStr.contains s text = true
  <-> exists pre post, text = (pre ++ s ++ post)%string.
Proof.
  induction text as [| d text IH].
  - rewrite contains_nil, prefix_app. split.
    + intros [post H]. exists EmptyString, post. exact H.
    + intros [pre [post H]]. destruct pre; simpl in H.
      * exists post. exact H.
      * discriminate.
  - rewrite contains_cons, orb_true_iff, prefix_app, IH. split.
    + intros [[post H] | [pre [post H]]].
      * exists EmptyString, post. exact H.
      * exists (String d pre), post. simpl. now rewrite H.
    + intros [pre [post H]]. destruct pre as [| e pre]; simpl in H.
      * left. exists post. exact H.
      * right. inversion H. exists pre, post. reflexivity.
Qed.

(** ** The penalty loops *)

Lemma penalize_hits (p : Q) (phrases : list string) (text : string) (avg : Q) :
  penalize p phrases text avg == avg - p * hits phrases text.
Proof.
  unfold hits, matching. revert avg.
  induction phrases as [| s rest IH]; intros avg; simpl.
  - unfold inject_Z. ring.
  - rewrite IH. destruct (PyStr.contains s text); simpl List.length.
    + rewrite Nat2Z.inj_succ. unfold Z.succ. rewrite inject_Z_plus. ring.
    + ring.
Qed.

Lemma hits_nonneg (phrases : list string) (text : string) :
  0 <= hits phrases text.
Proof.
  unfold hits. change 0 with (inject_Z 0). rewrite <- Zle_Qle. lia.
Qed.

Lemma adjust_hits (low high : list string) (text : string) (avg : Q) :
  adjust low high text avg
  == avg - P_low * hits low text - P_high * hits high text.
Proof.
  unfold adjust. rewrite penalize_hits, penalize_hits. ring.
Qed.

Lemma adjust_le (low high : list string) (text : string) (avg : Q) :
  adjust low high text avg <= avg.
Proof.
  rewrite adjust_hits.
  assert (Hl : 0 <= P_low * hits low text)
    by (apply Qmult_le_0_compat; [discriminate | apply hits_nonneg]).
  assert (Hh : 0 <= P_high * hits high text)
    by (apply Qmult_le_0_compat; [discriminate | apply hits_nonneg]).
  setoid_replace (avg - P_low * hits low text - P_high * hits high text)
    with (avg + - (P_low * hits low text + P_high * hits high text)) by ring.
  rewrite <- (Qplus_0_r avg) at 2.
  apply Qplus_le_r.
  setoid_replace 0 with (- 0) by ring.
  apply Qopp_le_compat.
  setoid_replace 0 with (0 + 0) by ring.
  apply Qplus_le_compat; assumption.
Qed.

Lemma adjust_compat (low high : list string) (text : string) (a b : Q) :
  a == b -> adjust low high text a == adjust low high text b.
Proof.
  intros Hab. rewrite !adjust_hits, Hab. reflexivity.
Qed.

Lemma Qltb_compat (a a' b : Q) : a == a' -> Qltb a b = Qltb a' b.
Proof.
  intro H. destruct (Qltb a' b) eqn:E.
  - apply Qltb_lt. apply Qltb_lt in E. now rewrite H.
  - apply Qltb_ge. apply Qltb_ge in E. now rewrite H.
Qed.

(** ** White space *)

Lemma ws_len_le (s : string) : (PyStr.ws_len s <= 3)%nat.
Proof.
  unfold PyStr.ws_len.
  repeat match goal with
         | |- context [match ?x with _ => _ end] => destruct x
         end; lia.
Qed.

Lemma rstrip_empty (s : string) :
  PyStr.rstrip s = EmptyString <-> PyStr.all_space s = true.
Proof.
  destruct s as [| c rest].
  - simpl. split; reflexivity.
  - change (PyStr.rstrip (String c rest))
      with (if PyStr.all_space (String c rest)
            then EmptyString else String c (PyStr.rstrip rest)).
    destruct (PyStr.all_space (String c rest)); split; congruence.
Qed.

Lemma isspace_from_0 (c : ascii) (rest : string) :
  PyStr.isspace_from 0 (String c rest)
  = match PyStr.ws_len (String c rest) with
    | O => false
    | S k => PyStr.isspace_from k rest
    end.
Proof. reflexivity. Qed.

Lemma lstrip_from_0 (c : ascii) (rest : string) :
  PyStr.lstrip_from 0 (String c rest)
  = match PyStr.ws_len (String c rest) with
    | O => String c rest
    | S k => PyStr.lstrip_from k rest
    end.
Proof. reflexivity. Qed.

Lemma lstrip_space (s : string) : forall k,
  PyStr.isspace_from 0 (PyStr.lstrip_from k s) = true ->
  PyStr.isspace_from k s = true.
Proof.
  induction s as [| c rest IH]; intros k H.
  - reflexivity.
  - destruct k as [| k].
    + rewrite lstrip_from_0 in H.
      destruct (PyStr.ws_len (String c rest)) as [| k] eqn:E.
      * exact H.
      * rewrite isspace_from_0, E. apply IH. exact H.
    + apply (IH k). exact H.
Qed.

(** A text that is blank after [strip()] holds white space only. *)
Lemma strip_empty_all_space (s : string) :
  PyStr.strip s = EmptyString -> PyStr.all_space s = true.
Proof.
  unfold PyStr.strip. intro H. apply rstrip_empty in H.
  apply lstrip_space. exact H.
Qed.

Lemma thank_you_not_space (pre post : string) : forall k,
  (k <= 2)%nat ->
  PyStr.isspace_from k (pre ++ "Thank you" ++ post)%string = false.
Proof.
  induction pre as [| c pre IH]; intros k Hk.
  - destruct k as [| [| [| k]]]; try lia; reflexivity.
  - destruct k as [| k].
    + change (String c pre ++ "Thank you" ++ post)%string
        with (String c (pre ++ "Thank you" ++ post)%string).
      rewrite isspace_from_0.
      pose proof (ws_len_le (String c (pre ++ "Thank you" ++ post)%string)) as Hle.
      destruct (PyStr.ws_len (String c (pre ++ "Thank you" ++ post)%string)).
      * reflexivity.
      * apply IH. lia.
    + apply (IH k). lia.
Qed.

(** A text in which "Thank you" occurs is not blank. *)
Lemma thank_you_not_blank (text : string) :
  PyStr.contains "Thank you" text = true ->
  String.eqb (PyStr.strip text) "" = false.
Proof.
  intro H. apply contains_spec in H. destruct H as [pre [post ->]].
  apply String.eqb_neq. intro E. apply strip_empty_all_space in E.
  unfold PyStr.all_space in E.
  rewrite thank_you_not_space in E by lia. discriminate.
Qed.

(** ** The confidence filters *)

Lemma batched_contributes_nil (avg nsp : Q) (text : string) :
  Batched.contributes avg nsp text = [] <-> Batched.rejects avg nsp text = true.
Proof.
  unfold Batched.contributes.
  destruct (Batched.rejects avg nsp text); split; congruence.
Qed.

Lemma forward_contributes_nil (r : Forward.Segment) :
  Forward.contributes r = [] <-> Forward.rejects r = true.
Proof.
  unfold Forward.contributes.
  destruct (Forward.rejects r); split; congruence.
Qed.

(** The output of [generate_segment_batched] is the texts of the rows
    that the filter keeps, in order: a rejected row leaves no entry. *)
Lemma filter_results_length (decode : list Z -> string) (lp : nat)
    (results : list Batched.GenerationResult) :
  List.length (Batched.filter_results decode lp results)
  = List.length
      (filter (fun r => negb (Batched.rejects (Batched.avg_logprob lp r)
                                (Batched.no_speech_prob r)
                                (decode (Batched.sequences_ids0 r))))
              results).
Proof.
  induction results as [| r rest IH]; simpl.
  - reflexivity.
  - unfold Batched.contributes.
    destruct (Batched.rejects _ _ _); simpl; rewrite IH; reflexivity.
Qed.

(** C1, as the specification states it, fails in both filtering call
    sites: the [whisper] branch keeps a candidate whose score is below
    -1.0, and [generate_segment_batched] keeps a candidate whose text is
    blank. *)
Lemma C1_full_disjunction_not_applied :
  (let r := {| Forward.text := "xin chào";
               Forward.avg_logprob := -(3 # 2);
               Forward.no_speech_prob := 1 # 10;
               Forward.compression_ratio := 3 # 2 |} in
   Spec.rejects (Forward.adjusted (Forward.text r) (Forward.avg_logprob r))
                (Forward.no_speech_prob r)
                (Some (Forward.compression_ratio r)) (Forward.text r)
   /\ Forward.contributes r = ["xin chào"])
  /\ (Spec.rejects (Batched.adjusted "  " (-(2 # 10))) (1 # 10) None "  "
      /\ Batched.contributes (-(2 # 10)) (1 # 10) "  " = ["  "]).
Proof.
  split; split.
  - left. vm_compute. reflexivity.
  - vm_compute. reflexivity.
  - right. right. right. vm_compute. reflexivity.
  - vm_compute. reflexivity.
Qed.

(** C1, amended: each filtering call site applies its own condition to
    the score after the phrase penalties.  [generate_segment_batched]
    drops a candidate exactly when the score is below -1.0 or
    [no_speech_prob] is above 0.7; the [whisper] branch of [_forward]
    drops one exactly when the score is below -0.5 with a compression
    ratio below 1 or above 2, or [no_speech_prob] is above 0.7, or the
    stripped text is empty.  A candidate that is not dropped contributes
    its text. *)
Theorem C1_filter_conditions :
  (forall (avg nsp : Q) (text : string),
      (Batched.contributes avg nsp text = []
       <-> Batched.adjusted text avg < -(1) \/ 7 # 10 < nsp)
      /\ (Batched.contributes avg nsp text = []
          \/ Batched.contributes avg nsp text = [text]))
  /\ (forall r : Forward.Segment,
      let a := Forward.adjusted (Forward.text r) (Forward.avg_logprob r) in
      (Forward.contributes r = []
       <-> (a < -(1 # 2)
            /\ (Forward.compression_ratio r < 1 \/ 2 < Forward.compression_ratio r))
           \/ 7 # 10 < Forward.no_speech_prob r
           \/ PyStr.strip (Forward.text r) = "")
      /\ (Forward.contributes r = []
          \/ Forward.contributes r = [Forward.text r])).
Proof.
  split.
  - intros avg nsp text. split.
    + rewrite batched_contributes_nil. unfold Batched.rejects.
      rewrite orb_true_iff, !Qltb_lt. reflexivity.
    + unfold Batched.contributes.
      destruct (Batched.rejects avg nsp text); [left | right]; reflexivity.
  - intros r a. split.
    + rewrite forward_contributes_nil. unfold Forward.rejects. fold a.
      rewrite !orb_true_iff, !andb_true_iff, !Qltb_lt, String.eqb_eq.
      tauto.
    + unfold Forward.contributes.
      destruct (Forward.rejects r); [left | right]; reflexivity.
Qed.

(** ** The phrase lists *)

(** C4, as the specification states it, fails: the two call sites do
    not use the same lists; "Thank you" costs 0.15 in
    [generate_segment_batched] and nothing in the [whisper] branch. *)
Lemma C4_phrase_lists_differ :
  Batched.suppress_low <> Forward.suppress_low
  /\ Batched.suppress_high <> Forward.suppress_high
  /\ Batched.adjusted "Thank you" 0 == -(15 # 100)
  /\ Forward.adjusted "Thank you" 0 == 0.
Proof.
  repeat split; try discriminate; vm_compute; reflexivity.
Qed.

(** C4, amended: at each call site, with the two lists of that call
    site, the score loses 0.15 for every low-severity phrase that occurs
    in the text and 0.35 for every high-severity one.  A phrase occurs
    when its bytes appear unchanged inside the text, and it counts once
    however often it occurs: no list names a phrase twice. *)
Theorem C4_phrase_penalties :
  (forall (text : string) (avg : Q),
      Batched.adjusted text avg
      == avg - (15 # 100) * hits Batched.suppress_low text
             - (35 # 100) * hits Batched.suppress_high text
      /\ Forward.adjusted text avg
         == avg - (15 # 100) * hits Forward.suppress_low text
                - (35 # 100) * hits Forward.suppress_high text)
  /\ (forall (phrases : list string) (s text : string),
         In s (matching phrases text)
         <-> In s phrases
             /\ exists pre post, text = (pre ++ s ++ post)%string)
  /\ NoDup Batched.suppress_low /\ NoDup Batched.suppress_high
  /\ NoDup Forward.suppress_low /\ NoDup Forward.suppress_high.
Proof.
  split; [| split].
  - intros text avg. split; apply adjust_hits.
  - intros phrases s text. unfold matching.
    rewrite filter_In, contains_spec. reflexivity.
  - repeat split;
      repeat (constructor; [simpl; intuition discriminate |]); constructor.
Qed.

(** ** Fixed scores *)

Lemma matching_none (phrases : list string) (text : string) :
  (forall s, In s phrases -> PyStr.contains s text = false) ->
  hits phrases text == 0.
Proof.
  intro H. unfold hits, matching.
  replace (filter (fun s => PyStr.contains s text) phrases) with (@nil string).
  - reflexivity.
  - symmetry. induction phrases as [| s rest IH]; simpl.
    + reflexivity.
    + rewrite (H s) by (left; reflexivity).
      apply IH. intros s' Hs'. apply H. right. exact Hs'.
Qed.

Lemma hits_cons_hit (s : string) (phrases : list string) (text : string) :
  PyStr.contains s text = true ->
  hits (s :: phrases) text == 1 + hits phrases text.
Proof.
  intro H. unfold hits, matching. cbn [filter]. rewrite H.
  cbn [List.length]. rewrite Nat2Z.inj_succ. unfold Z.succ.
  rewrite inject_Z_plus. ring.
Qed.

(** C5, as the specification states it, fails in the [whisper] branch:
    a candidate scored -1.5 with a compression ratio of 1.5 is kept. *)
Lemma C5_low_score_kept_in_whisper_branch :
  Forward.contributes
    {| Forward.text := "xin chào";
       Forward.avg_logprob := -(3 # 2);
       Forward.no_speech_prob := 1 # 10;
       Forward.compression_ratio := 3 # 2 |}
  = ["xin chào"].
Proof. vm_compute. reflexivity. Qed.

(** C5, amended: a candidate with [avg_logprob = -1.5] and
    [no_speech_prob = 0.1] is dropped by [generate_segment_batched]
    whatever its text; the [whisper] branch of [_forward] drops it
    exactly when its compression ratio is below 1 or above 2 or its
    stripped text is empty. *)
Theorem C5_score_below_threshold (avg nsp cr : Q) (text : string) :
  avg == -(3 # 2) ->
  nsp == 1 # 10 ->
  Batched.contributes avg nsp text = []
  /\ (Forward.contributes
        {| Forward.text := text; Forward.avg_logprob := avg;
           Forward.no_speech_prob := nsp; Forward.compression_ratio := cr |}
      = []
      <-> cr < 1 \/ 2 < cr \/ PyStr.strip text = "").
Proof.
  intros Havg Hnsp. split.
  - apply batched_contributes_nil. unfold Batched.rejects.
    apply orb_true_iff. left. apply Qltb_lt.
    apply Qle_lt_trans with (y := avg).
    + apply adjust_le.
    + rewrite Havg. reflexivity.
  - rewrite forward_contributes_nil. unfold Forward.rejects. simpl.
    assert (Ha : Qltb (Forward.adjusted text avg) (-(1 # 2)) = true).
    { apply Qltb_lt. apply Qle_lt_trans with (y := avg).
      - apply adjust_le.
      - rewrite Havg. reflexivity. }
    assert (Hn : Qltb (7 # 10) nsp = false).
    { apply Qltb_ge. rewrite Hnsp. discriminate. }
    rewrite Ha, Hn. simpl.
    rewrite orb_false_r, !orb_true_iff, !Qltb_lt, String.eqb_eq.
    tauto.
Qed.

Lemma C5_score_below_threshold_witness :
  Batched.contributes (-(3 # 2)) (1 # 10) "xin chào" = []
  /\ (Forward.contributes
        {| Forward.text := "xin chào"; Forward.avg_logprob := -(3 # 2);
           Forward.no_speech_prob := 1 # 10;
           Forward.compression_ratio := 5 # 2 |}
      = []
      <-> 5 # 2 < 1 \/ 2 < 5 # 2 \/ PyStr.strip "xin chào" = "").
Proof.
  apply (C5_score_below_threshold (-(3 # 2)) (1 # 10) (5 # 2) "xin chào");
    reflexivity.
Defined.

(** C6, as the specification states it, fails in the [whisper] branch:
    "Thank you" is not in its lists, the score stays at -0.9 and the
    candidate is kept. *)
Lemma C6_thank_you_kept_in_whisper_branch :
  Forward.adjusted "Thank you" (-(9 # 10)) == -(9 # 10)
  /\ Forward.contributes
       {| Forward.text := "Thank you";
          Forward.avg_logprob := -(9 # 10);
          Forward.no_speech_prob := 1 # 10;
          Forward.compression_ratio := 3 # 2 |}
     = ["Thank you"].
Proof. split; vm_compute; reflexivity. Qed.

(** C6, amended: for a text in which "Thank you" occurs and no other
    phrase of any of the four lists, with [avg_logprob = -0.9]:
    [generate_segment_batched] lowers the score to -1.05 and drops the
    candidate; the [whisper] branch of [_forward], which does not list
    "Thank you", leaves the score at -0.9 and drops the candidate exactly
    when the compression ratio is below 1 or above 2 or [no_speech_prob]
    is above 0.7. *)
Theorem C6_thank_you_penalty (avg nsp cr : Q) (text : string) :
  PyStr.contains "Thank you" text = true ->
  (forall s,
      In s (Batched.suppress_low ++ Batched.suppress_high
            ++ Forward.suppress_low ++ Forward.suppress_high)%list ->
      s <> "Thank you" -> PyStr.contains s text = false) ->
  avg == -(9 # 10) ->
  Batched.adjusted text avg == -(105 # 100)
  /\ Batched.contributes avg nsp text = []
  /\ Forward.adjusted text avg == -(9 # 10)
  /\ (Forward.contributes
        {| Forward.text := text; Forward.avg_logprob := avg;
           Forward.no_speech_prob := nsp; Forward.compression_ratio := cr |}
      = []
      <-> cr < 1 \/ 2 < cr \/ 7 # 10 < nsp).
Proof.
  intros Hty Hother Havg.
  assert (Hrest : forall l,
             (forall s, In s l ->
                        In s (Batched.suppress_low ++ Batched.suppress_high
                              ++ Forward.suppress_low
                              ++ Forward.suppress_high)%list
                        /\ s <> "Thank you") ->
             hits l text == 0).
  { intros l Hl. apply matching_none. intros s Hs.
    destruct (Hl s Hs) as [Hin Hne]. apply Hother; assumption. }
  assert (Hbl : hits Batched.suppress_low text == 1).
  { unfold Batched.suppress_low. rewrite (hits_cons_hit _ _ _ Hty).
    rewrite Hrest.
    - reflexivity.
    - intros s Hs. split.
      + apply in_or_app. left. right. exact Hs.
      + intros ->. vm_compute in Hs. intuition discriminate. }
  assert (Hbh : hits Batched.suppress_high text == 0).
  { apply Hrest. intros s Hs. split.
    - apply in_or_app. right. apply in_or_app. left. exact Hs.
    - intros ->. vm_compute in Hs. intuition discriminate. }
  assert (Hfl : hits Forward.suppress_low text == 0).
  { apply Hrest. intros s Hs. split.
    - apply in_or_app. right. apply in_or_app. right.
      apply in_or_app. left. exact Hs.
    - intros ->. vm_compute in Hs. intuition discriminate. }
  assert (Hfh : hits Forward.suppress_high text == 0).
  { apply Hrest. intros s Hs. split.
    - apply in_or_app. right. apply in_or_app. right.
      apply in_or_app. right. exact Hs.
    - intros ->. vm_compute in Hs. intuition discriminate. }
  assert (Hb : Batched.adjusted text avg == -(105 # 100)).
  { unfold Batched.adjusted. rewrite adjust_hits, Hbl, Hbh, Havg. reflexivity. }
  assert (Hf : Forward.adjusted text avg == -(9 # 10)).
  { unfold Forward.adjusted. rewrite adjust_hits, Hfl, Hfh, Havg. reflexivity. }
  repeat split; try assumption.
  - apply batched_contributes_nil. unfold Batched.rejects.
    rewrite (Qltb_compat _ _ _ Hb). reflexivity.
  - rewrite forward_contributes_nil. unfold Forward.rejects. simpl.
    rewrite (Qltb_compat _ _ _ Hf), (thank_you_not_blank _ Hty).
    change (Qltb (- (9 # 10)) (- (1 # 2))) with true. simpl.
    rewrite orb_false_r, !orb_true_iff, !Qltb_lt. tauto.
  - rewrite forward_contributes_nil. unfold Forward.rejects. simpl.
    rewrite (Qltb_compat _ _ _ Hf), (thank_you_not_blank _ Hty).
    change (Qltb (- (9 # 10)) (- (1 # 2))) with true. simpl.
    rewrite orb_false_r, !orb_true_iff, !Qltb_lt. tauto.
Qed.

Lemma C6_thank_you_penalty_witness :
  Batched.adjusted "Thank you" (-(9 # 10)) == -(105 # 100)
  /\ Batched.contributes (-(9 # 10)) (1 # 10) "Thank you" = []
  /\ Forward.adjusted "Thank you" (-(9 # 10)) == -(9 # 10)
  /\ (Forward.contributes
        {| Forward.text := "Thank you"; Forward.avg_logprob := -(9 # 10);
           Forward.no_speech_prob := 1 # 10;
           Forward.compression_ratio := 3 # 2 |}
      = []
      <-> 3 # 2 < 1 \/ 2 < 3 # 2 \/ 7 # 10 < 1 # 10).
Proof.
  apply (C6_thank_you_penalty (-(9 # 10)) (1 # 10) (3 # 2) "Thank you").
  - reflexivity.
  - intros s Hin Hne. simpl in Hin.
    repeat (destruct Hin as [<- | Hin];
            [first [reflexivity | exfalso; apply Hne; reflexivity] |]).
    contradiction.
  - reflexivity.
Defined.

(** ** The segment source *)

Lemma py_int_nonneg (x : Q) : 0 <= x -> (0 <= py_int x)%Z.
Proof.
  intro H. unfold py_int. apply Z.quot_pos; [| lia].
  unfold Qle in H. simpl in H. lia.
Qed.

(** On a time that is not negative, [int] rounds down. *)
Lemma py_int_floor (x : Q) : 0 <= x -> py_int x = Qfloor x.
Proof.
  intro H. destruct x as [n d]. unfold py_int, Qfloor. simpl.
  unfold Qle in H. simpl in H.
  apply Z.quot_div_nonneg; lia.
Qed.

(** The slice [a[f1:f2]] for bounds that are not negative: position [j]
    holds sample [f1 + j] of [a] as long as [j < f2 - f1] and the sample
    exists, and nothing otherwise. *)
Lemma py_slice_nth {A : Type} (a : list A) (f1 f2 : Z) (j : nat) :
  (0 <= f1)%Z -> (0 <= f2)%Z ->
  nth_error (py_slice a f1 f2) j
  = if (Z.of_nat j <? f2 - f1)%Z
    then nth_error a (Z.to_nat f1 + j)
    else None.
Proof.
  intros H1 H2. unfold py_slice, slice_bound.
  destruct (Z.ltb_spec f1 0) as [? | _]; [lia |].
  destruct (Z.ltb_spec f2 0) as [? | _]; [lia |].
  set (n := Z.of_nat (List.length a)).
  rewrite nth_error_firstn, nth_error_skipn.
  destruct (Nat.ltb_spec j (Z.to_nat (Z.min f2 n - Z.min f1 n))) as [Hj | Hj];
    destruct (Z.ltb_spec (Z.of_nat j) (f2 - f1)) as [Hk | Hk].
  - f_equal. lia.
  - lia.
  - symmetry. apply nth_error_None. lia.
  - reflexivity.
Qed.

Lemma data_length (audio : Waveform) (segments : list AudioSegment) :
  List.length (data audio segments) = List.length segments.
Proof. unfold data. apply length_map. Qed.

Lemma py_int_le (x y : Q) : 0 <= x -> x <= y -> (py_int x <= py_int y)%Z.
Proof.
  intros Hx Hxy.
  rewrite (py_int_floor x Hx), (py_int_floor y (Qle_trans _ _ _ Hx Hxy)).
  apply Qfloor_resp_le. exact Hxy.
Qed.

Lemma py_round_near (x : Q) :
  inject_Z (py_round x) - (1 # 2) <= x /\ x <= inject_Z (py_round x) + (1 # 2).
Proof.
  unfold py_round.
  pose proof (Qfloor_le x) as H1.
  pose proof (Qlt_floor x) as H2. rewrite inject_Z_plus in H2.
  change (inject_Z 1) with 1 in H2.
  set (f := Qfloor x) in *.
  destruct (Qcompare_spec (x - inject_Z f) (1 # 2)) as [E | E | E].
  - destruct (Z.even f); [| rewrite inject_Z_plus; change (inject_Z 1) with 1];
      split; lra.
  - split; lra.
  - rewrite inject_Z_plus. change (inject_Z 1) with 1. split; lra.
Qed.

Lemma py_round_le (x y : Q) : x <= y -> (py_round x <= py_round y)%Z.
Proof.
  intro Hxy. unfold py_round.
  pose proof (Qfloor_resp_le x y Hxy) as Hf.
  pose proof (Qfloor_le x) as X1.
  pose proof (Qfloor_le y) as Y1.
  destruct (Z.eq_dec (Qfloor x) (Qfloor y)) as [Heq | Hne].
  - rewrite <- Heq in *. set (f := Qfloor x) in *.
    destruct (Qcompare_spec (x - inject_Z f) (1 # 2)) as [E | E | E];
      destruct (Qcompare_spec (y - inject_Z f) (1 # 2)) as [E' | E' | E'];
      destruct (Z.even f); try lia; exfalso; lra.
  - destruct (Qcompare (x - inject_Z (Qfloor x)) (1 # 2));
      destruct (Qcompare (y - inject_Z (Qfloor y)) (1 # 2));
      destruct (Z.even (Qfloor x)); destruct (Z.even (Qfloor y)); lia.
Qed.

(** ** Binary64 rounding *)

Lemma pow2_pos (k : Z) : 0 < pow2 k.
Proof. apply Qpower_0_lt. reflexivity. Qed.

Lemma pow2_add (a b : Z) : pow2 (a + b) == pow2 a * pow2 b.
Proof. apply Qpower_plus. discriminate. Qed.

Lemma pow2_le (a b : Z) : (a <= b)%Z -> pow2 a <= pow2 b.
Proof. intro H. apply Qpower_le_compat_l; [exact H | discriminate]. Qed.

Lemma pow2_lt_inv (a b : Z) : pow2 a < pow2 b -> (a < b)%Z.
Proof. intro H. apply (Qpower_lt_compat_l_inv 2); [exact H | reflexivity]. Qed.

Lemma pow2_Z (a : Z) : (0 <= a)%Z -> pow2 a == inject_Z (2 ^ a).
Proof. intro H. symmetry. apply (Zpower_Qpower 2 a H). Qed.

Lemma py_round_Z (n : Z) : py_round (inject_Z n) = n.
Proof.
  pose proof (py_round_near (inject_Z n)) as [H1 H2].
  assert (A : inject_Z (py_round (inject_Z n) - n) <= 1 # 2).
  { unfold Zminus. rewrite inject_Z_plus, inject_Z_opp. lra. }
  assert (B : -(1 # 2) <= inject_Z (py_round (inject_Z n) - n)).
  { unfold Zminus. rewrite inject_Z_plus, inject_Z_opp. lra. }
  unfold Qle in A, B. simpl in A, B. lia.
Qed.

Lemma py_round_eq (x y : Q) : x == y -> py_round x = py_round y.
Proof.
  intro H. apply Z.le_antisymm; apply py_round_le; rewrite H; apply Qle_refl.
Qed.

(** [Qlog2 x] is the integer part of the base-2 logarithm of [x]. *)
Lemma Qlog2_spec (x : Q) :
  0 < x -> pow2 (Qlog2 x) <= x /\ x < pow2 (Qlog2 x + 1).
Proof.
  intro Hx. unfold Qlog2.
  destruct x as [n d]. cbn [Qnum Qden].
  assert (Hn : (0 < n)%Z) by (unfold Qlt in Hx; simpl in Hx; lia).
  set (a := Z.log2 n). set (b := Z.log2 (Z.pos d)).
  destruct (Z.log2_spec n Hn) as [A1 A2]. fold a in A1, A2.
  destruct (Z.log2_spec (Z.pos d) ltac:(lia)) as [B1 B2]. fold b in B1, B2.
  assert (Ha : (0 <= a)%Z) by apply Z.log2_nonneg.
  assert (Hb : (0 <= b)%Z) by apply Z.log2_nonneg.
  assert (QA1 : pow2 a <= inject_Z n)
    by (rewrite pow2_Z by lia; rewrite <- Zle_Qle; exact A1).
  assert (QA2 : inject_Z n < pow2 (a + 1)).
  { rewrite pow2_Z by lia. rewrite <- Zlt_Qlt.
    replace (a + 1)%Z with (Z.succ a) by lia. exact A2. }
  assert (QB1 : pow2 b <= inject_Z (Z.pos d))
    by (rewrite pow2_Z by lia; rewrite <- Zle_Qle; exact B1).
  assert (QB2 : inject_Z (Z.pos d) < pow2 (b + 1)).
  { rewrite pow2_Z by lia. rewrite <- Zlt_Qlt.
    replace (b + 1)%Z with (Z.succ b) by lia. exact B2. }
  assert (Hxd : (n # d) * inject_Z (Z.pos d) == inject_Z n).
  { unfold Qeq, Qmult, inject_Z. simpl. lia. }
  pose proof (pow2_pos b) as Pb.
  assert (Pd : 0 < inject_Z (Z.pos d)) by (unfold Qlt; simpl; lia).
  (* x < 2^(a-b+1) and 2^(a-b-1) < x *)
  assert (Up : (n # d) < pow2 (a - b + 1)).
  { apply Qnot_le_lt. intro C.
    assert (E : pow2 (a + 1) == pow2 (a - b + 1) * pow2 b).
    { rewrite <- pow2_add. replace (a - b + 1 + b)%Z with (a + 1)%Z by lia.
      reflexivity. }
    pose proof (pow2_pos (a - b + 1)) as P1.
    assert (pow2 (a - b + 1) * pow2 b <= (n # d) * inject_Z (Z.pos d)).
    { apply Qle_trans with ((n # d) * pow2 b).
      - apply Qmult_le_compat_r; [exact C | apply Qlt_le_weak, Pb].
      - rewrite (Qmult_comm (n # d) (pow2 b)), (Qmult_comm (n # d) _).
        apply Qmult_le_compat_r; [exact QB1 | apply Qlt_le_weak, Hx]. }
    rewrite Hxd, <- E in H. lra. }
  assert (Lo : pow2 (a - b - 1) <= (n # d)).
  { apply Qnot_lt_le. intro C.
    assert (E : pow2 a == pow2 (a - b - 1) * pow2 (b + 1)).
    { rewrite <- pow2_add. replace (a - b - 1 + (b + 1))%Z with a by lia.
      reflexivity. }
    pose proof (pow2_pos (a - b - 1)) as P1.
    pose proof (pow2_pos (b + 1)) as P2.
    assert ((n # d) * inject_Z (Z.pos d) < pow2 (a - b - 1) * pow2 (b + 1)).
    { apply Qle_lt_trans with ((n # d) * pow2 (b + 1)).
      - rewrite (Qmult_comm (n # d) _), (Qmult_comm (n # d) _).
        apply Qmult_le_compat_r; [apply Qlt_le_weak, QB2 | apply Qlt_le_weak, Hx].
      - apply Qmult_lt_compat_r; [exact P2 | exact C]. }
    rewrite Hxd, <- E in H. lra. }
  destruct (Qle_bool (pow2 (a - b)) (n # d)) eqn:T.
  - apply Qle_bool_iff in T. split; [exact T | exact Up].
  - assert (T' : (n # d) < pow2 (a - b)).
    { apply Qnot_le_lt. intro C. apply Qle_bool_iff in C. congruence. }
    split; [exact Lo |].
    replace (a - b - 1 + 1)%Z with (a - b)%Z by lia. exact T'.
Qed.

Lemma Qlog2_unique (x : Q) (k : Z) :
  pow2 k <= x -> x < pow2 (k + 1) -> Qlog2 x = k.
Proof.
  intros H1 H2.
  assert (Hx : 0 < x) by (pose proof (pow2_pos k); lra).
  destruct (Qlog2_spec x Hx) as [S1 S2].
  assert (A : (k < Qlog2 x + 1)%Z) by (apply pow2_lt_inv; lra).
  assert (B : (Qlog2 x < k + 1)%Z) by (apply pow2_lt_inv; lra).
  lia.
Qed.

Lemma Qlog2_le (x y : Q) : 0 < x -> x <= y -> (Qlog2 x <= Qlog2 y)%Z.
Proof.
  intros Hx Hxy.
  destruct (Qlog2_spec x Hx) as [S1 _].
  destruct (Qlog2_spec y ltac:(lra)) as [_ T2].
  assert (A : (Qlog2 x < Qlog2 y + 1)%Z) by (apply pow2_lt_inv; lra).
  lia.
Qed.

Lemma Qabs_nonneg_eq (x : Q) : 0 <= x -> Qabs x = x.
Proof.
  intro H. destruct x as [n d]. unfold Qabs. cbn [Qnum Qden].
  unfold Qle in H. simpl in H. rewrite Z.abs_eq by lia. reflexivity.
Qed.

Lemma fl64_pos (x : Q) :
  0 < x -> fl64 x = inject_Z (py_round (x / pow2 (ulp_exp x))) * pow2 (ulp_exp x).
Proof.
  intro Hx. unfold fl64.
  destruct (Qeq_bool x 0) eqn:E; [| reflexivity].
  apply Qeq_bool_iff in E. lra.
Qed.

Lemma scaled_bounds (x : Q) :
  0 < x ->
  x / pow2 (ulp_exp x) < pow2 53
  /\ ((-1074 < ulp_exp x)%Z -> pow2 52 <= x / pow2 (ulp_exp x)).
Proof.
  intro Hx. unfold ulp_exp. rewrite (Qabs_nonneg_eq x) by lra.
  destruct (Qlog2_spec x Hx) as [S1 S2].
  set (l := Qlog2 x) in *. set (e := Z.max (l - 52) (-1074)).
  pose proof (pow2_pos e) as Pe.
  split.
  - apply Qlt_shift_div_r; [exact Pe |].
    rewrite <- pow2_add.
    apply Qlt_le_trans with (pow2 (l + 1)); [exact S2 |].
    apply pow2_le. lia.
  - intro He. apply Qle_shift_div_l; [exact Pe |].
    rewrite <- pow2_add.
    replace (52 + e)%Z with l by lia. exact S1.
Qed.

Lemma fl64_0 : fl64 0 = 0.
Proof. reflexivity. Qed.

Lemma fl64_nonneg (x : Q) : 0 <= x -> 0 <= fl64 x.
Proof.
  intro Hx. unfold fl64.
  destruct (Qeq_bool x 0) eqn:E; [apply Qle_refl |].
  apply Qmult_le_0_compat; [| apply Qlt_le_weak, pow2_pos].
  change 0 with (inject_Z 0). rewrite <- Zle_Qle.
  rewrite <- (py_round_Z 0). apply py_round_le.
  apply Qle_shift_div_l; [apply pow2_pos |].
  change (inject_Z 0) with 0. rewrite Qmult_0_l. exact Hx.
Qed.

(** Rounding to the nearest double keeps the order of times that are
    not negative. *)
Lemma fl64_le (x y : Q) : 0 <= x -> x <= y -> fl64 x <= fl64 y.
Proof.
  intros Hx Hxy.
  destruct (Qeq_bool x 0) eqn:E0.
  - unfold fl64 at 1. rewrite E0. apply fl64_nonneg. lra.
  - assert (Hx' : 0 < x).
    { destruct (Qlt_le_dec 0 x) as [H | H]; [exact H |].
      assert (x == 0) by lra. apply Qeq_bool_iff in H0. congruence. }
    assert (Hy' : 0 < y) by lra.
    rewrite (fl64_pos x Hx'), (fl64_pos y Hy').
    destruct (scaled_bounds x Hx') as [X1 X2].
    destruct (scaled_bounds y Hy') as [Y1 Y2].
    assert (He : (ulp_exp x <= ulp_exp y)%Z).
    { unfold ulp_exp. rewrite !Qabs_nonneg_eq by lra.
      pose proof (Qlog2_le x y Hx' Hxy). lia. }
    set (ex := ulp_exp x) in *. set (ey := ulp_exp y) in *.
    pose proof (pow2_pos ex) as Px. pose proof (pow2_pos ey) as Py.
    destruct (Z.eq_dec ex ey) as [Heq | Hne].
    + rewrite <- Heq.
      apply Qmult_le_compat_r; [| apply Qlt_le_weak, Px].
      rewrite <- Zle_Qle. apply py_round_le.
      apply Qle_shift_div_l; [exact Px |].
      unfold Qdiv. rewrite <- Qmult_assoc, (Qmult_comm (/ _)), Qmult_inv_r, Qmult_1_r by lra.
      exact Hxy.
    + assert (Hlt : (ex + 1 <= ey)%Z) by lia.
      assert (Hy52 : pow2 52 <= y / pow2 ey).
      { apply Y2. unfold ex, ey, ulp_exp in *. lia. }
      apply Qle_trans with (pow2 53 * pow2 ex).
      * apply Qmult_le_compat_r; [| apply Qlt_le_weak, Px].
        rewrite (pow2_Z 53) by lia. rewrite <- Zle_Qle.
        rewrite <- (py_round_Z (2 ^ 53)). apply py_round_le.
        rewrite <- pow2_Z by lia. apply Qlt_le_weak, X1.
      * apply Qle_trans with (pow2 52 * pow2 ey).
        -- rewrite <- !pow2_add. apply pow2_le. lia.
        -- apply Qmult_le_compat_r; [| apply Qlt_le_weak, Py].
           rewrite (pow2_Z 52) by lia. rewrite <- Zle_Qle.
           rewrite <- (py_round_Z (2 ^ 52)). apply py_round_le.
           rewrite <- pow2_Z by lia. exact Hy52.
Qed.

Lemma fl64_eq (x y : Q) : 0 <= x -> x == y -> fl64 x == fl64 y.
Proof.
  intros Hx Hxy. apply Qle_antisym; apply fl64_le; lra.
Qed.

Lemma div_pow2 (m : Z) (e : Z) : inject_Z m * pow2 e / pow2 e == inject_Z m.
Proof.
  pose proof (pow2_pos e). field. lra.
Qed.

(** A double is its own nearest double: [m * 2^e] with a mantissa [m]
    of 53 bits, or of fewer bits at the lowest exponent. *)
Lemma fl64_of_double (m e : Z) :
  (0 < m <= 2 ^ 53)%Z ->
  (-1074 <= e)%Z ->
  ((m < 2 ^ 52)%Z -> e = (-1074)%Z) ->
  fl64 (inject_Z m * pow2 e) == inject_Z m * pow2 e.
Proof.
  intros Hm He Hsub.
  set (y := inject_Z m * pow2 e).
  pose proof (pow2_pos e) as Pe.
  assert (Qm : 0 < inject_Z m) by (change 0 with (inject_Z 0); rewrite <- Zlt_Qlt; lia).
  assert (Hy : 0 < y) by (unfold y; apply Qmult_lt_0_compat; assumption).
  rewrite (fl64_pos y Hy).
  assert (Hl : Qlog2 y = (Z.log2 m + e)%Z).
  { destruct (Z.log2_spec m ltac:(lia)) as [A1 A2].
    pose proof (Z.log2_nonneg m) as L0.
    apply Qlog2_unique; unfold y.
    - rewrite pow2_add. apply Qmult_le_compat_r; [| lra].
      rewrite pow2_Z by lia. rewrite <- Zle_Qle. exact A1.
    - replace (Z.log2 m + e + 1)%Z with (Z.log2 m + 1 + e)%Z by lia.
      rewrite pow2_add. apply Qmult_lt_compat_r; [exact Pe |].
      rewrite pow2_Z by lia. rewrite <- Zlt_Qlt.
      replace (Z.log2 m + 1)%Z with (Z.succ (Z.log2 m)) by lia. exact A2. }
  assert (Hu : ulp_exp y = Z.max (Z.log2 m + e - 52) (-1074))
    by (unfold ulp_exp; rewrite (Qabs_nonneg_eq y) by lra; rewrite Hl; reflexivity).
  destruct (Z.eq_dec m (2 ^ 53)) as [E53 | N53].
  - (* the mantissa is 2^53 *)
    assert (Hlog : Z.log2 m = 53%Z) by (rewrite E53; reflexivity).
    rewrite Hu, Hlog.
    replace (Z.max (53 + e - 52) (-1074)) with (e + 1)%Z by lia.
    assert (Hs : y / pow2 (e + 1) == inject_Z (2 ^ 52)).
    { unfold y. rewrite E53, pow2_add.
      change (pow2 1) with 2. change (inject_Z (2 ^ 53)) with (2 * inject_Z (2 ^ 52)).
      field. lra. }
    rewrite (py_round_eq _ _ Hs), py_round_Z.
    unfold y. rewrite E53, pow2_add.
    change (pow2 1) with 2. change (inject_Z (2 ^ 53)) with (2 * inject_Z (2 ^ 52)).
    ring.
  - assert (Hlog : (Z.log2 m <= 52)%Z).
    { assert (m < 2 ^ 53)%Z by lia.
      apply Z.lt_succ_r. apply Z.log2_lt_pow2; lia. }
    assert (Hue : ulp_exp y = e).
    { rewrite Hu. destruct (Z_lt_le_dec m (2 ^ 52)) as [Hlt | Hge].
      - rewrite (Hsub Hlt). lia.
      - assert (52 <= Z.log2 m)%Z by (apply Z.log2_le_pow2; lia). lia. }
    rewrite Hue. unfold y.
    rewrite (py_round_eq _ _ (div_pow2 m e)), py_round_Z. reflexivity.
Qed.

(** Rounding twice is rounding once. *)
Lemma fl64_idempotent (x : Q) : 0 <= x -> fl64 (fl64 x) == fl64 x.
Proof.
  intro Hx.
  destruct (Qeq_bool x 0) eqn:E0.
  - unfold fl64 at 2. rewrite E0. unfold fl64 at 2. rewrite E0. reflexivity.
  - assert (Hx' : 0 < x).
    { destruct (Qlt_le_dec 0 x) as [H | H]; [exact H |].
      assert (x == 0) by lra. apply Qeq_bool_iff in H0. congruence. }
    rewrite (fl64_pos x Hx').
    destruct (scaled_bounds x Hx') as [X1 X2].
    set (e := ulp_exp x) in *.
    set (m := py_round (x / pow2 e)).
    pose proof (pow2_pos e) as Pe.
    assert (M0 : (0 <= m)%Z).
    { unfold m. rewrite <- (py_round_Z 0). apply py_round_le.
      apply Qle_shift_div_l; [exact Pe |].
      change (inject_Z 0) with 0. lra. }
    assert (M53 : (m <= 2 ^ 53)%Z).
    { unfold m. rewrite <- (py_round_Z (2 ^ 53)). apply py_round_le.
      rewrite <- pow2_Z by lia. lra. }
    assert (He : (-1074 <= e)%Z) by (unfold e, ulp_exp; lia).
    destruct (Z.eq_dec m 0) as [Z0 | NZ].
    + rewrite Z0. unfold fl64.
      assert (Hz : inject_Z 0 * pow2 e == 0) by (change (inject_Z 0) with 0; ring).
      apply Qeq_bool_iff in Hz. rewrite Hz.
      change (inject_Z 0) with 0. ring.
    + apply fl64_of_double; [lia | exact He |].
      intro Hlt. destruct (Z.eq_dec e (-1074)) as [-> | Hne]; [reflexivity |].
      exfalso.
      assert (H52 : pow2 52 <= x / pow2 e) by (apply X2; lia).
      assert ((2 ^ 52 <= m)%Z).
      { unfold m. rewrite <- (py_round_Z (2 ^ 52)). apply py_round_le.
        rewrite <- pow2_Z by lia. exact H52. }
      lia.
Qed.

(** Whole numbers below 2^53 are doubles. *)
Lemma fl64_Z (n : Z) : (0 <= n < 2 ^ 53)%Z -> fl64 (inject_Z n) == inject_Z n.
Proof.
  intros [H0 H53].
  destruct (Z.eq_dec n 0) as [-> | Hn]; [reflexivity |].
  assert (Hpos : (0 < n)%Z) by lia.
  destruct (Z.log2_spec n Hpos) as [A1 A2].
  pose proof (Z.log2_nonneg n) as L0.
  assert (L52 : (Z.log2 n <= 52)%Z)
    by (apply Z.lt_succ_r; apply Z.log2_lt_pow2; lia).
  set (l := Z.log2 n) in *.
  assert (E : inject_Z n == inject_Z (n * 2 ^ (52 - l)) * pow2 (l - 52)).
  { rewrite inject_Z_mult, <- (pow2_Z (52 - l)) by lia.
    rewrite <- Qmult_assoc, <- pow2_add.
    replace (52 - l + (l - 52))%Z with 0%Z by lia.
    change (pow2 0) with 1. ring. }
  assert (Qn : 0 <= inject_Z n)
    by (change 0 with (inject_Z 0); rewrite <- Zle_Qle; lia).
  rewrite (fl64_eq _ _ Qn E), E.
  assert (P52 : (2 ^ 52 <= n * 2 ^ (52 - l))%Z).
  { replace (2 ^ 52)%Z with (2 ^ l * 2 ^ (52 - l))%Z
      by (rewrite <- Z.pow_add_r by lia; f_equal; lia).
    apply Z.mul_le_mono_nonneg_r; [apply Z.pow_nonneg; lia | exact A1]. }
  assert (P53 : (n * 2 ^ (52 - l) < 2 ^ 53)%Z).
  { replace (2 ^ 53)%Z with (2 ^ Z.succ l * 2 ^ (52 - l))%Z
      by (rewrite <- Z.pow_add_r by lia; f_equal; lia).
    apply Z.mul_lt_mono_pos_r; [apply Z.pow_pos_nonneg; lia | exact A2]. }
  apply fl64_of_double; lia.
Qed.

(** [fl64] against the binary64 multiplication of the Standard Library
    ([SFmul] with 53 bits and exponents up to 1024), on the doubles
    nearest to 1.001, 0.009 and 0.1 and on the smallest positive double,
    each times 16000. *)
Lemma fl64_is_binary64_product :
  Forall (fun x =>
            SF2Q (SpecFloat.SFmul 53 1024 x (SpecFloat.S754_finite false 16000 0))
            == fl64 (SF2Q x * inject_Z SAMPLE_RATE))
         [ SpecFloat.S754_finite false 2254051613498933 (-51);
           SpecFloat.S754_finite false 5188146770730811 (-59);
           SpecFloat.S754_finite false 3602879701896397 (-55);
           SpecFloat.S754_finite false 1 (-1074) ].
Proof. repeat constructor; vm_compute; reflexivity. Qed.

(** The sample index of a time that is not negative is not negative
    and grows with the time. *)
Lemma sample_index_nonneg (t : Q) : 0 <= t -> (0 <= sample_index t)%Z.
Proof.
  intro H. unfold sample_index. apply py_int_nonneg, fl64_nonneg.
  apply Qmult_le_0_compat; [apply fl64_nonneg, H | discriminate].
Qed.

Lemma sample_index_le (s t : Q) :
  0 <= s -> s <= t -> (sample_index s <= sample_index t)%Z.
Proof.
  intros Hs Hst. unfold sample_index.
  assert (H0 : 0 <= fl64 s * inject_Z SAMPLE_RATE)
    by (apply Qmult_le_0_compat; [apply fl64_nonneg, Hs | discriminate]).
  apply py_int_le; [apply fl64_nonneg, H0 |].
  apply fl64_le; [exact H0 |].
  apply Qmult_le_compat_r; [apply fl64_le; assumption | discriminate].
Qed.

(** C8, as the specification states it, fails: the bounds are cut toward
    zero, not rounded.  For a segment from 2^-14 s to 3 * 2^-14 s (both
    doubles; 0.9765625 and 2.9296875 samples, exact products) the code
    yields samples 0 and 1, the specification asks for samples 1 and
    2. *)
Lemma C8_bounds_not_rounded :
  data [10; 20; 30; 40] [ {| seg_start := 1 # 16384; seg_end := 3 # 16384 |} ]
  = [[10; 20]]
  /\ Spec.data [10; 20; 30; 40]
       [ {| seg_start := 1 # 16384; seg_end := 3 # 16384 |} ]
     = [[20; 30]].
Proof. split; vm_compute; reflexivity. Qed.

(** C8, amended: for every waveform and every ordered list of N VAD
    segments the segment source yields exactly N slices in order; for a
    segment whose times are not negative, slice i covers the sample
    indices from [int(start_i * sample_rate)], inclusive, to
    [int(end_i * sample_rate)], exclusive, where each product is the
    double nearest to the exact product of the two floats and [int]
    cuts it down to a whole number, and an end index beyond the waveform
    stops at the last sample instead of failing.  The product is not
    the exact one: the float 1.001 gives sample 16015, the float 0.009
    gives sample 144. *)
Theorem C8_segment_slices (audio : Waveform) (segments : list AudioSegment)
    (i : nat) (seg : AudioSegment) :
  nth_error segments i = Some seg ->
  0 <= seg_start seg ->
  0 <= seg_end seg ->
  let p1 := fl64 (fl64 (seg_start seg) * inject_Z SAMPLE_RATE) in
  let p2 := fl64 (fl64 (seg_end seg) * inject_Z SAMPLE_RATE) in
  let f1 := Qfloor p1 in
  let f2 := Qfloor p2 in
  List.length (data audio segments) = List.length segments
  /\ (exists slice,
        nth_error (data audio segments) i = Some slice
        /\ forall j,
             nth_error slice j
             = if (Z.of_nat j <? f2 - f1)%Z
               then nth_error audio (Z.to_nat f1 + j)
               else None)
  /\ sample_index (1001 # 1000) = 16015%Z
  /\ sample_index (9 # 1000) = 144%Z.
Proof.
  intros Hi Hs He p1 p2 f1 f2. split; [apply data_length |].
  split; [| split; vm_compute; reflexivity].
  assert (Hs' : 0 <= p1).
  { apply fl64_nonneg, Qmult_le_0_compat; [apply fl64_nonneg, Hs | discriminate]. }
  assert (He' : 0 <= p2).
  { apply fl64_nonneg, Qmult_le_0_compat; [apply fl64_nonneg, He | discriminate]. }
  exists (py_slice audio f1 f2). split.
  - unfold data. rewrite nth_error_map, Hi. simpl. unfold sample_index.
    fold p1. fold p2.
    rewrite (py_int_floor _ Hs'), (py_int_floor _ He'). reflexivity.
  - intro j. apply py_slice_nth.
    + unfold f1. rewrite <- (py_int_floor _ Hs'). apply py_int_nonneg, Hs'.
    + unfold f2. rewrite <- (py_int_floor _ He'). apply py_int_nonneg, He'.
Qed.

Lemma C8_segment_slices_witness :
  let p1 := fl64 (fl64 (1 # 16384) * inject_Z SAMPLE_RATE) in
  let p2 := fl64 (fl64 1 * inject_Z SAMPLE_RATE) in
  let f1 := Qfloor p1 in
  let f2 := Qfloor p2 in
  List.length (data [10; 20; 30] [ {| seg_start := 1 # 16384; seg_end := 1 |} ])
  = 1%nat
  /\ (exists slice,
        nth_error (data [10; 20; 30]
                     [ {| seg_start := 1 # 16384; seg_end := 1 |} ]) 0
        = Some slice
        /\ forall j,
             nth_error slice j
             = if (Z.of_nat j <? f2 - f1)%Z
               then nth_error [10; 20; 30] (Z.to_nat f1 + j)
               else None)
  /\ sample_index (1001 # 1000) = 16015%Z
  /\ sample_index (9 # 1000) = 144%Z.
Proof.
  apply (C8_segment_slices [10; 20; 30]
           [ {| seg_start := 1 # 16384; seg_end := 1 |} ] 0
           {| seg_start := 1 # 16384; seg_end := 1 |}).
  - reflexivity.
  - discriminate.
  - discriminate.
Defined.

(** ** [load_model] *)

(** C9 fails in the code: whatever the arguments, [load_model] ends with
    the [AttributeError] of line 545.  With a recognized [vad_method]
    ("silero", "pyannote") it builds no pipeline, and with any other
    name what it raises is not the [ValueError] of line 579, which it
    never reaches.  [whisper.load_model] and [AutoTokenizer] are taken
    to return. *)
Theorem C9_load_model_always_raises {rt : Runtime} {AsrDict : Type}
    (whisper_arch device : string)
    (asr_options : option AsrDict) (language : option string)
    (vad_model : option (Waveform -> nat -> list AudioSegment))
    (vad_method : option string) (vad_options : option (list (string * Q))) :
  let r := load_model whisper_arch device asr_options language vad_model
                      vad_method vad_options in
  r = inl AttributeError
  /\ (forall p, r <> inr p)
  /\ (forall msg, r <> inl (ValueError msg)).
Proof.
  intro r. unfold r, load_model.
  destruct (Whisper_model (whisper_load_model whisper_arch)) as [e | v] eqn:E;
    [| destruct v].
  unfold Whisper_model in E. inversion E; subst.
  split; [reflexivity |]. split; intros x H; discriminate.
Qed.

(** ** The generator [transcribe] *)

Section Generator.

Context {audio_module : AudioModule}.

Lemma replace_replace (o : TranscriptionOptions) (x y : list Z) :
  replace_suppress_tokens (replace_suppress_tokens o x) y
  = replace_suppress_tokens o y.
Proof. reflexivity. Qed.

Lemma replace_same (o : TranscriptionOptions) :
  replace_suppress_tokens o (suppress_tokens o) = o.
Proof. destruct o. reflexivity. Qed.

Lemma pulls_finished (k : nat) (p : FasterWhisperPipeline) :
  pulls k p Finished = (p, Finished, []).
Proof. destruct k; reflexivity. Qed.

(** What [finish] does to the pipeline and what it returns. *)
Lemma finish_spec (p p' : FasterWhisperPipeline) (f : Frame)
    (g : Generator) (ev : Event) :
  finish p f = (p', g, ev) ->
  g = Finished
  /\ (forall x, replace_suppress_tokens (options p') x
                = replace_suppress_tokens (options p) x)
  /\ (forall r, ev = Return r ->
        language r = f_language f
        /\ segments r = f_segments f
        /\ (suppress_numerals p = false -> options p' = options p)
        /\ (forall prev, suppress_numerals p = true ->
                         f_previous_suppress_tokens f = Some prev ->
                         options p' = replace_suppress_tokens (options p) prev)).
Proof.
  unfold finish. intro H.
  assert (Hp1 : forall q, q = match preset_language p with
                              | None => set_tokenizer p None
                              | Some _ => p
                              end ->
                          options q = options p
                          /\ suppress_numerals q = suppress_numerals p).
  { intros q ->. destruct (preset_language p); split; reflexivity. }
  destruct (Hp1 _ eq_refl) as [Ho Hs].
  set (p1 := match preset_language p with
             | None => set_tokenizer p None
             | Some _ => p
             end) in *.
  destruct (suppress_numerals p1) eqn:E.
  - destruct (f_previous_suppress_tokens f) as [previous |] eqn:Ep;
      inversion H; subst; clear H.
    + split; [reflexivity |]. split.
      * intro x. simpl. rewrite Ho. reflexivity.
      * intros r Hr. inversion Hr; subst. simpl. repeat split.
        -- congruence.
        -- intros prev _ Hprev. inversion Hprev; subst.
           rewrite Ho. reflexivity.
    + split; [reflexivity |]. split.
      * intro x. rewrite Ho. reflexivity.
      * intros r Hr. discriminate.
  - inversion H; subst; clear H.
    split; [reflexivity |]. split.
    + intro x. rewrite Ho. reflexivity.
    + intros r Hr. inversion Hr; subst. simpl. repeat split.
      * intros _. exact Ho.
      * intros prev Ht. congruence.
Qed.

(** One turn of [resume]: a text is yielded and the frame moves on, or an
    exception ends the generator, or the loop is over and [finish] runs. *)
Lemma resume_cases (p : FasterWhisperPipeline) (f : Frame) :
  (exists t seg,
      nth_error (f_vad_segments f) (f_idx f) = Some seg
      /\ resume p f
         = (p,
            AtYield
              {| f_vad_segments := f_vad_segments f;
                 f_language := f_language f;
                 f_previous_suppress_tokens := f_previous_suppress_tokens f;
                 f_batch_size := f_batch_size f;
                 f_segments :=
                   (f_segments f
                    ++ [ {| sg_text := t; sg_start := round3 (seg_start seg);
                            sg_end := round3 (seg_end seg) |} ])%list;
                 f_idx := S (f_idx f);
                 f_items := tl (f_items f);
                 f_error := f_error f;
                 f_detections := f_detections f |},
            Yield t))
  \/ (exists e, resume p f = (p, Finished, Raise e))
  \/ resume p f = finish p f.
Proof.
  unfold resume. destruct (f_items f) as [| out items].
  - destruct (f_error f) as [e |].
    + right. left. exists e. reflexivity.
    + right. right. reflexivity.
  - destruct (if per_sample (f_batch_size f) then index0 out else inr out)
      as [e | text].
    + right. left. exists e. reflexivity.
    + destruct (nth_error (f_vad_segments f) (f_idx f)) as [seg |] eqn:E.
      * left. exists text, seg. split; reflexivity.
      * right. left. exists IndexError. reflexivity.
Qed.

Lemma pulls_at_yield (k : nat) : forall (q : FasterWhisperPipeline) (f : Frame)
    (q' : FasterWhisperPipeline) (g : Generator) (evs : list Event),
  pulls k q (AtYield f) = (q', g, evs) ->
  (forall x, replace_suppress_tokens (options q') x
             = replace_suppress_tokens (options q) x)
  /\ (forall r, In (Return r) evs ->
        language r = f_language f
        /\ (suppress_numerals q = false -> options q' = options q)
        /\ (forall prev, suppress_numerals q = true ->
                         f_previous_suppress_tokens f = Some prev ->
                         options q' = replace_suppress_tokens (options q) prev)).
Proof.
  induction k as [| k IH]; intros q f q' g evs H.
  - inversion H; subst. split; [reflexivity | intros r []].
  - cbn [pulls next] in H.
    destruct (resume_cases q f) as [[t [seg [_ Hr]]] | [[e Hr] | Hr]].
    + rewrite Hr in H.
      destruct (pulls k q (AtYield _)) as [[p2 g2] evs2] eqn:E.
      inversion H; subst; clear H.
      destruct (IH _ _ _ _ _ E) as [Hx Hret]. split; [exact Hx |].
      intros r [Hin | Hin]; [discriminate |].
      exact (Hret r Hin).
    + rewrite Hr, pulls_finished in H. inversion H; subst; clear H.
      split; [reflexivity |].
      intros r [Hin | []]. discriminate.
    + rewrite Hr in H.
      destruct (finish q f) as [[p1 g1] ev] eqn:E.
      destruct (finish_spec _ _ _ _ _ E) as [-> [Hx Hret]].
      rewrite pulls_finished in H. inversion H; subst; clear H.
      split; [exact Hx |].
      intros r [Hin | []]. subst ev.
      destruct (Hret r eq_refl) as [Hl [_ [Hf Hp]]].
      repeat split; assumption.
Qed.

(** What the first part of the body leaves behind. *)
Lemma begin_spec (p p1 : FasterWhisperPipeline) (a : Args)
    (res : Exception + Frame) :
  begin p a = (p1, res) ->
  suppress_numerals p1 = suppress_numerals p
  /\ (forall x, replace_suppress_tokens (options p1) x
                = replace_suppress_tokens (options p) x)
  /\ (forall f, res = inr f ->
        f_language f = fst (fst (resolve_language p a))
        /\ f_detections f = detect_language_calls p a
        /\ f_vad_segments f = vad p (audio a) (chunk_size a)
        /\ f_idx f = 0%nat
        /\ (suppress_numerals p = true ->
            f_previous_suppress_tokens f = Some (suppress_tokens (options p)))).
Proof.
  unfold begin, detect_language_calls.
  destruct (resolve_language p a) as [[lang calls] tok].
  cbn [fst snd]. cbn [suppress_numerals set_tokenizer tokenizer options].
  destruct (suppress_numerals p) eqn:Es.
  - destruct tok as [t |].
    + destruct (call_pipeline _ _ _) as [e | [items err]];
        intro H; inversion H; subst; clear H; cbn.
      * split; [exact Es |]. split; [reflexivity |].
        intros f Hf. discriminate.
      * split; [exact Es |]. split; [reflexivity |].
        intros f Hf. inversion Hf; subst. cbn.
        split; [reflexivity |]. split; [reflexivity |].
        split; [reflexivity |]. split; reflexivity.
    + intro H; inversion H; subst; clear H; cbn.
      split; [exact Es |]. split; [reflexivity |].
      intros f Hf. discriminate.
  - destruct (call_pipeline _ _ _) as [e | [items err]];
      intro H; inversion H; subst; clear H; cbn.
    + split; [exact Es |]. split; [reflexivity |].
      intros f Hf. discriminate.
    + split; [exact Es |]. split; [reflexivity |].
      intros f Hf. inversion Hf; subst. cbn.
      split; [reflexivity |]. split; [reflexivity |].
      split; [reflexivity |]. split; [reflexivity | discriminate].
Qed.

Lemma pulls_created (k : nat) (p p1 : FasterWhisperPipeline) (a : Args)
    (f : Frame) :
  begin p a = (p1, inr f) ->
  pulls (S k) p (Created a) = pulls (S k) p1 (AtYield f).
Proof.
  intro H. cbn [pulls next]. rewrite H. reflexivity.
Qed.

Lemma pulls_created_raise (k : nat) (p p1 : FasterWhisperPipeline) (a : Args)
    (e : Exception) :
  begin p a = (p1, inl e) ->
  pulls (S k) p (Created a) = (p1, Finished, [Raise e]).
Proof.
  intro H. cbn [pulls next]. rewrite H, pulls_finished. reflexivity.
Qed.

End Generator.

(** ** Scoped options and the language of a call *)

Section Calls.

Context {audio_module : AudioModule}.

(** The generator is over after one call of [next] for every VAD
    segment and one more: [transcribe] always reads it to its end. *)
Lemma pulls_finish (k : nat) : forall (q : FasterWhisperPipeline) (f : Frame),
  (f_idx f <= List.length (f_vad_segments f))%nat ->
  (List.length (f_vad_segments f) < k + f_idx f)%nat ->
  snd (fst (pulls k q (AtYield f))) = Finished.
Proof.
  induction k as [| k IH]; intros q f Hi Hk.
  - simpl in Hk. lia.
  - cbn [pulls next].
    destruct (resume_cases q f) as [[t [seg [Hseg Hr]]] | [[e Hr] | Hr]].
    + rewrite Hr.
      destruct (pulls k q (AtYield _)) as [[p2 g2] evs2] eqn:E.
      cbn [fst snd].
      change g2 with (snd (fst (p2, g2, evs2))). rewrite <- E.
      assert (Hlt : (f_idx f < List.length (f_vad_segments f))%nat)
        by (apply nth_error_Some; congruence).
      apply IH; cbn [f_idx f_vad_segments]; lia.
    + rewrite Hr, pulls_finished. reflexivity.
    + rewrite Hr. destruct (finish q f) as [[p1 g1] ev] eqn:E.
      destruct (finish_spec _ _ _ _ _ E) as [-> _].
      rewrite pulls_finished. reflexivity.
Qed.

Lemma transcribe_finishes (p : FasterWhisperPipeline) (a : Args) :
  snd (fst (transcribe p a)) = Finished.
Proof.
  unfold transcribe.
  destruct (begin p a) as [p1 [e | f]] eqn:E.
  - rewrite (pulls_created_raise _ _ _ _ _ E). reflexivity.
  - rewrite (pulls_created _ _ _ _ _ E).
    destruct (begin_spec _ _ _ _ E) as [_ [_ Hf]].
    destruct (Hf f eq_refl) as [_ [_ [Hv [Hi _]]]].
    apply pulls_finish; rewrite Hv, Hi; lia.
Qed.

(** C7, as the specification states it, fails for an interrupted call:
    a consumer that reads one text and drops the generator leaves the
    numeral tokens in [suppress_tokens]. *)
Lemma C7_override_left_after_interruption :
  snd (pulls (audio_module := Demo.audio_module) 1 Demo.whisper_pipeline
         (Created (Demo.with_batch_size 1)))
  = [Yield (TextStr "")]
  /\ suppress_tokens (options Demo.whisper_pipeline) = [(-1)%Z]
  /\ suppress_tokens
       (options (transcribe_abandoned (audio_module := Demo.audio_module) 1
                   Demo.whisper_pipeline (Demo.with_batch_size 1)))
     = [2%Z; 3%Z; (-1)%Z].
Proof. repeat split; vm_compute; reflexivity. Qed.

(** C7, amended: for every call of [transcribe] made with
    [suppress_numerals] enabled that runs to completion, the options
    record after the call equals the one before it, [suppress_tokens]
    included; and at every point of every call, whether it completes, is
    dropped after any number of texts or ends with an exception, all
    fields other than [suppress_tokens] are unchanged. *)
Theorem C7_options_restored_on_completion (p : FasterWhisperPipeline)
    (a : Args) :
  (suppress_numerals p = true ->
   forall r, In (Return r) (snd (transcribe p a)) ->
             options (fst (fst (transcribe p a))) = options p)
  /\ (forall k,
        replace_suppress_tokens (options (transcribe_abandoned k p a))
                                (suppress_tokens (options p))
        = options p)
  /\ replace_suppress_tokens (options (fst (fst (transcribe p a))))
                             (suppress_tokens (options p))
     = options p.
Proof.
  assert (Hall : forall k,
             replace_suppress_tokens (options (transcribe_abandoned k p a))
                                     (suppress_tokens (options p))
             = options p).
  { intro k. unfold transcribe_abandoned.
    destruct k as [| k].
    + apply replace_same.
    + destruct (begin p a) as [p1 [e | f]] eqn:E.
      * rewrite (pulls_created_raise _ _ _ _ _ E). cbn [fst].
        destruct (begin_spec _ _ _ _ E) as [_ [Hx _]].
        rewrite Hx. apply replace_same.
      * rewrite (pulls_created _ _ _ _ _ E).
        destruct (begin_spec _ _ _ _ E) as [_ [Hx _]].
        destruct (pulls _ p1 (AtYield f)) as [[q' g] evs] eqn:Ep.
        destruct (pulls_at_yield _ _ _ _ _ _ Ep) as [Hy _].
        cbn [fst]. rewrite Hy, Hx. apply replace_same. }
  split; [| split; [exact Hall |]].
  - intros Hs r Hret.
    unfold transcribe in *.
    destruct (begin p a) as [p1 [e | f]] eqn:E.
    + rewrite (pulls_created_raise _ _ _ _ _ E) in Hret.
      destruct Hret as [H | []]. discriminate.
    + rewrite (pulls_created _ _ _ _ _ E) in *.
      destruct (begin_spec _ _ _ _ E) as [Hs1 [Hx Hf]].
      destruct (Hf f eq_refl) as [_ [_ [_ [_ Hprev]]]].
      destruct (pulls _ p1 (AtYield f)) as [[q' g] evs] eqn:Ep.
      destruct (pulls_at_yield _ _ _ _ _ _ Ep) as [_ Hr].
      destruct (Hr r Hret) as [_ [_ Ho]].
      cbn [fst snd]. rewrite (Ho _ (eq_trans Hs1 Hs) (Hprev Hs)).
      rewrite Hx. apply replace_same.
  - exact (Hall (S (List.length (vad p (audio a) (chunk_size a))))).
Qed.

(** The language that lines 404-417 settle on, and the number of
    detections. *)
Lemma resolve_language_truthy (p : FasterWhisperPipeline) (a : Args) :
  truthy (arg_language a) = true ->
  fst (fst (resolve_language p a)) = arg_language a
  /\ detect_language_calls p a = 0%nat.
Proof.
  intro H. unfold detect_language_calls, resolve_language.
  destruct (model p) as [m | m | m]; try (split; reflexivity).
  destruct (tokenizer p) as [tok |].
  - unfold py_or. rewrite H.
    destruct (_ || negb _); split; reflexivity.
  - rewrite H. split; reflexivity.
Qed.

Lemma detect_language_calls_spec (p : FasterWhisperPipeline) (a : Args) :
  (detect_language_calls p a = 1%nat
   <-> truthy (arg_language a) = false
       /\ (exists m, model p = IsWhisperModel m)
       /\ tokenizer p = None)
  /\ (detect_language_calls p a = 0%nat \/ detect_language_calls p a = 1%nat).
Proof.
  unfold detect_language_calls, resolve_language.
  destruct (model p) as [m | m | m].
  - cbn. split; [| left; reflexivity].
    split; [discriminate | intros [_ [[m' H] _]]; discriminate].
  - cbn. split; [| left; reflexivity].
    split; [discriminate | intros [_ [[m' H] _]]; discriminate].
  - destruct (tokenizer p) as [tok |].
    + destruct (_ || negb _); cbn; (split; [| left; reflexivity]);
        (split; [discriminate | intros [_ [_ H]]; discriminate]).
    + destruct (truthy (arg_language a)); cbn.
      * split; [| left; reflexivity].
        split; [discriminate | intros [H _]; discriminate].
      * split; [| right; reflexivity].
        split; [| reflexivity].
        intros _. repeat split. exists m. reflexivity.
Qed.

(** C10, as stated, fails for a call that passes a language which is
    not [None] but empty: with a faster-whisper model and no tokenizer
    the detection runs and the returned language is the detected one. *)
Lemma C10_empty_language_is_detected :
  detect_language_calls (audio_module := Demo.audio_module)
    Demo.faster_pipeline (Demo.with_language (Some "")) = 1%nat
  /\ exists segs,
       last (snd (transcribe (audio_module := Demo.audio_module)
                    Demo.faster_pipeline (Demo.with_language (Some ""))))
            StopIteration
       = Return {| segments := segs; language := Some "en" |}.
Proof.
  split; [vm_compute; reflexivity |].
  eexists. vm_compute. reflexivity.
Qed.

(** C10, amended: for every call of [transcribe] whose language
    argument (the passed one, or the default "vi" when none is passed) is
    a non-empty string, [detect_language] is not called and the returned
    language is that argument; [detect_language] is called exactly when
    the language argument is [None] or empty, the model is a
    [WhisperModel] and no tokenizer is cached. *)
Theorem C10_language_and_detection (p : FasterWhisperPipeline) (a : Args) :
  truthy (arg_language a) = true ->
  detect_language_calls p a = 0%nat
  /\ (forall r, In (Return r) (snd (transcribe p a)) ->
                language r = arg_language a)
  /\ (forall w, arg_language (default_args w) = Some "vi")
  /\ (forall p' a',
         detect_language_calls p' a' = 1%nat
         <-> truthy (arg_language a') = false
             /\ (exists m, model p' = IsWhisperModel m)
             /\ tokenizer p' = None).
Proof.
  intro H. destruct (resolve_language_truthy p a H) as [Hl Hc].
  split; [exact Hc |]. split; [| split].
  - intros r Hret. unfold transcribe in Hret.
    destruct (begin p a) as [p1 [e | f]] eqn:E.
    + rewrite (pulls_created_raise _ _ _ _ _ E) in Hret.
      destruct Hret as [Hr | []]. discriminate.
    + rewrite (pulls_created _ _ _ _ _ E) in Hret.
      destruct (begin_spec _ _ _ _ E) as [_ [_ Hf]].
      destruct (Hf f eq_refl) as [Hfl _].
      destruct (pulls _ p1 (AtYield f)) as [[q' g] evs] eqn:Ep.
      destruct (pulls_at_yield _ _ _ _ _ _ Ep) as [_ Hr].
      destruct (Hr r Hret) as [Hlang _].
      rewrite Hlang, Hfl. exact Hl.
  - intro w. reflexivity.
  - intros p' a'. apply detect_language_calls_spec.
Qed.

End Calls.

Lemma C7_options_restored_on_completion_witness :
  options (fst (fst (transcribe (audio_module := Demo.audio_module)
                       Demo.whisper_pipeline (Demo.with_batch_size 1))))
  = options Demo.whisper_pipeline.
Proof.
  apply (proj1 (C7_options_restored_on_completion
                  (audio_module := Demo.audio_module)
                  Demo.whisper_pipeline (Demo.with_batch_size 1))
           eq_refl Demo.whisper_result).
  vm_compute. right. right. left. reflexivity.
Defined.

Lemma C10_language_and_detection_witness :
  detect_language_calls (audio_module := Demo.audio_module)
    Demo.whisper_pipeline (Demo.with_batch_size 2) = 0%nat
  /\ (forall r,
         In (Return r)
            (snd (transcribe (audio_module := Demo.audio_module)
                    Demo.whisper_pipeline (Demo.with_batch_size 2))) ->
         language r = arg_language (Demo.with_batch_size 2))
  /\ (forall w, arg_language (default_args w) = Some "vi")
  /\ (forall p' a',
         detect_language_calls (audio_module := Demo.audio_module) p' a'
         = 1%nat
         <-> truthy (arg_language a') = false
             /\ (exists m, model p' = IsWhisperModel m)
             /\ tokenizer p' = None).
Proof.
  apply (C10_language_and_detection (audio_module := Demo.audio_module)
           Demo.whisper_pipeline
           (Demo.with_batch_size 2)).
  reflexivity.
Defined.

(** ** Segments and batches *)

(** C2 on a concrete input.  The waveform [Demo.wave] has two VAD
    segments; the faster-whisper model scores the first one -1.5 and the
    second one -0.2.  With [batch_size = 2], [generate_segment_batched]
    returns one text for the batch of two, and [transcribe] produces one
    output segment: the text of the second segment with the times of the
    first. *)
Lemma C2_rejected_candidate_loses_its_slot :
  List.length (vad Demo.faster_pipeline Demo.wave 30) = 2%nat
  /\ generate_segment_batched Demo.faster
       (map (fun w => [w])
          (data Demo.wave (vad Demo.faster_pipeline Demo.wave 30)))
       (Demo.tok (Some "transcribe") (Some "vi"))
       (options Demo.faster_pipeline)
     = ["xin chào"]
  /\ snd (transcribe (audio_module := Demo.audio_module)
            Demo.faster_pipeline (Demo.with_batch_size 2))
     = [ Yield (TextStr "xin chào");
         Return
           {| segments :=
                [ {| sg_text := TextStr "xin chào";
                     sg_start := 0 # 1000; sg_end := 1 # 1000 |} ];
              language := Some "vi" |} ].
Proof. repeat split; vm_compute; reflexivity. Qed.

(** C3 on the same input: with [batch_size] 0 or 1 the first item of the
    iterator holds an empty list and [text[0]] raises [IndexError];
    with [batch_size = 2] the call returns one segment. *)
Lemma C3_batch_size_changes_the_outcome :
  snd (transcribe (audio_module := Demo.audio_module)
         Demo.faster_pipeline (Demo.with_batch_size 0))
  = [Raise IndexError]
  /\ snd (transcribe (audio_module := Demo.audio_module)
            Demo.faster_pipeline (Demo.with_batch_size 1))
     = [Raise IndexError]
  /\ snd (transcribe (audio_module := Demo.audio_module)
            Demo.faster_pipeline (Demo.with_batch_size 2))
     = [ Yield (TextStr "xin chào");
         Return
           {| segments :=
                [ {| sg_text := TextStr "xin chào";
                     sg_start := 0 # 1000; sg_end := 1 # 1000 |} ];
              language := Some "vi" |} ].
Proof. repeat split; vm_compute; reflexivity. Qed.

(** ** The [whisper] branch keeps one slot for every segment *)

Section WhisperBranch.

Context {audio_module : AudioModule}.

Lemma collate_spec {A : Type} (n : nat) (l : list A) : forall cur,
  (List.length cur < n)%nat ->
  List.concat (collate n cur l) = (rev cur ++ l)%list
  /\ loader_batches n (collate n cur l).
Proof.
  induction l as [| x rest IH]; intros cur Hcur.
  - destruct cur as [| c cur]; simpl.
    + split; [reflexivity | exact I].
    + rewrite !app_nil_r. split; [reflexivity |].
      rewrite length_app, length_rev. simpl in *. lia.
  - cbn [collate].
    destruct (Nat.eqb_spec (List.length (x :: cur)) n) as [Hn | Hn].
    + destruct (IH [] ltac:(simpl in *; lia)) as [Hc Hw].
      split.
      * cbn [List.concat]. rewrite Hc. simpl. rewrite <- app_assoc. reflexivity.
      * cbn [loader_batches].
        assert (Hlen : List.length (rev (x :: cur)) = n)
          by (rewrite length_rev; exact Hn).
        destruct (collate n [] rest); [lia | split; assumption].
    + destruct (IH (x :: cur) ltac:(simpl in *; lia)) as [Hc Hw].
      split; [| exact Hw].
      rewrite Hc. simpl. rewrite <- app_assoc. reflexivity.
Qed.

Lemma collate_map {A B : Type} (g : A -> B) (n : nat) (l : list A) : forall cur,
  collate n (map g cur) (map g l) = map (map g) (collate n cur l).
Proof.
  induction l as [| x rest IH]; intros cur.
  - destruct cur; simpl; [reflexivity |].
    rewrite map_app, map_rev. reflexivity.
  - cbn [collate map]. cbn [List.length]. rewrite !length_map.
    destruct (Nat.eqb_spec (S (List.length cur)) n).
    + pose proof (IH []) as IH0. cbn [map] in IH0. rewrite IH0.
      change (g x :: map g cur) with (map g (x :: cur)).
      rewrite <- map_rev. reflexivity.
    + apply (IH (x :: cur)).
Qed.

Lemma collate_one {A : Type} (l : list A) :
  collate 1 [] l = map (fun x => [x]) l.
Proof.
  induction l as [| x rest IH]; [reflexivity |].
  cbn [collate map List.length Nat.eqb rev app]. rewrite IH. reflexivity.
Qed.

(** When every batch gives one text per input, unrolling hands the
    texts on one by one, in order, and ends without an exception. *)
Lemma unroll_loader_batches {A : Type} (G : A -> string)
    (batches : list (list A)) : forall lbs,
  (1 <= lbs)%nat ->
  loader_batches lbs batches ->
  unroll lbs (map (fun b => inr (map G b)) batches)
  = (map TextStr (map G (List.concat batches)), None).
Proof.
  induction batches as [| b rest IH]; intros lbs Hpos Hw.
  - reflexivity.
  - cbn [map unroll List.concat]. rewrite length_map.
    cbn [loader_batches] in Hw.
    destruct b as [| x b].
    + exfalso. destruct rest; simpl in Hw; lia.
    + cbn [map]. set (l := G x :: map G b).
      assert (Hl : List.length l = List.length (x :: b))
        by (unfold l; simpl; rewrite length_map; reflexivity).
      rewrite <- Hl in *.
      destruct rest as [| b' rest'].
      * cbn [map unroll List.concat].
        replace (firstn _ l) with l.
        -- fold l. rewrite !app_nil_r. reflexivity.
        -- symmetry. apply firstn_all2.
           destruct ((0 <? List.length l)%nat && (List.length l <? lbs)%nat);
             lia.
      * destruct Hw as [Hlen Hw].
        rewrite Hlen, Nat.ltb_irrefl, andb_false_r.
        rewrite (IH lbs Hpos Hw).
        rewrite <- Hlen, firstn_all. fold l.
        rewrite !map_app. reflexivity.
Qed.

Lemma no_unroll_singletons {A : Type} (G : A -> string) (l : list A) :
  no_unroll (map (fun b => inr (map G b)) (map (fun x => [x]) l))
  = (map (fun x => TextList [G x]) l, None).
Proof.
  induction l as [| x rest IH]; [reflexivity |].
  cbn [map no_unroll]. rewrite IH. reflexivity.
Qed.

Lemma forward_whisper (q : FasterWhisperPipeline) (m : Whisper)
    (b : list Waveform) :
  model q = IsWhisper m ->
  _forward q (map (preprocess q) b)
  = inr (map (fun w =>
                Forward.join_output
                  (Forward.accepted
                     (whisper_transcribe m (pad_or_trim w)
                        (beam_size (options q)) (patience (options q))
                        (length_penalty (options q)))))
             b).
Proof.
  intro Hm. unfold _forward, preprocess. rewrite Hm.
  rewrite map_map. reflexivity.
Qed.

(** The items that the iterator of line 430 gives in the [whisper]
    branch: one per input, a one-element list of texts when there is no
    unrolling, the text itself otherwise. *)
Lemma whisper_stream (q : FasterWhisperPipeline) (m : Whisper)
    (ws : list Waveform) (n : nat) :
  model q = IsWhisper m ->
  let G := fun w =>
             Forward.join_output
               (Forward.accepted
                  (whisper_transcribe m (pad_or_trim w)
                     (beam_size (options q)) (patience (options q))
                     (length_penalty (options q)))) in
  call_pipeline q ws (Some (S n))
  = inr (map (fun w => if (S n =? 1)%nat then TextList [G w] else TextStr (G w))
             ws,
         None).
Proof.
  intros Hm G. unfold call_pipeline.
  change (@nil ModelInput) with (map (preprocess q) []).
  rewrite collate_map, map_map.
  rewrite (map_ext _ (fun b => inr (map G b)))
    by (intro b; apply forward_whisper; exact Hm).
  destruct n as [| n].
  - cbn [Nat.eqb]. rewrite collate_one, no_unroll_singletons. reflexivity.
  - cbn [Nat.eqb].
    destruct (collate_spec (S (S n)) ws []) as [Hc Hw]; [simpl; lia |].
    rewrite (unroll_loader_batches G _ (S (S n)) ltac:(lia) Hw), Hc.
    cbn [rev app]. rewrite map_map. reflexivity.
Qed.

(** The loop of lines 430-444 on a stream with one item per remaining
    segment: every turn yields the text and appends the segment with the
    times of the same VAD segment; then the call returns. *)
Lemma loop_all (T : AudioSegment -> string) (q : FasterWhisperPipeline)
    (L : option string) (P : option (list Z)) (B : option nat) (d : nat)
    (segs : list AudioSegment) : forall (pre : list AudioSegment)
    (S0 : list SingleSegment),
  (suppress_numerals q = true -> P <> None) ->
  snd (pulls (S (List.length segs)) q
         (AtYield
            {| f_vad_segments := (pre ++ segs)%list;
               f_language := L;
               f_previous_suppress_tokens := P;
               f_batch_size := B;
               f_segments := S0;
               f_idx := List.length pre;
               f_items :=
                 map (fun seg => if per_sample B then TextList [T seg]
                                 else TextStr (T seg)) segs;
               f_error := None;
               f_detections := d |}))
  = (map (fun seg => Yield (TextStr (T seg))) segs
     ++ [Return
           {| segments :=
                (S0 ++ map (fun seg => output_segment (T seg) seg) segs)%list;
              language := L |}])%list.
Proof.
  induction segs as [| seg rest IH]; intros pre S0 HP.
  - cbn [List.length pulls next map app]. unfold resume. cbn [f_items f_error].
    rewrite app_nil_r. unfold finish.
    assert (Hs : suppress_numerals
                   match preset_language q with
                   | Some _ => q
                   | None => set_tokenizer q None
                   end = suppress_numerals q)
      by (destruct (preset_language q); reflexivity).
    rewrite Hs. cbn [f_previous_suppress_tokens f_segments f_language].
    destruct (suppress_numerals q) eqn:E.
    + destruct P as [prev |]; [| exfalso; apply HP; reflexivity].
      cbn [snd]. rewrite ?app_nil_r. reflexivity.
    + cbn [snd]. rewrite ?app_nil_r. reflexivity.
  - cbn [List.length]. cbn [pulls next]. unfold resume at 1.
    cbn [f_items map f_batch_size f_vad_segments f_idx f_language
         f_previous_suppress_tokens f_segments f_error f_detections].
    assert (Hi : (if per_sample B
                  then index0 (if per_sample B then TextList [T seg]
                               else TextStr (T seg))
                  else inr (if per_sample B then TextList [T seg]
                            else TextStr (T seg)))
                 = inr (TextStr (T seg)))
      by (destruct (per_sample B); reflexivity).
    rewrite Hi.
    assert (Hn : nth_error (pre ++ seg :: rest) (List.length pre) = Some seg)
      by (rewrite nth_error_app2, Nat.sub_diag by lia; reflexivity).
    rewrite Hn.
    assert (Hv : (pre ++ seg :: rest = (pre ++ [seg]) ++ rest)%list)
      by (rewrite <- app_assoc; reflexivity).
    assert (Hl : S (List.length pre) = List.length (pre ++ [seg])%list)
      by (rewrite length_app; simpl; lia).
    rewrite Hv, Hl.
    specialize (IH (pre ++ [seg])%list
                   (S0 ++ [ {| sg_text := TextStr (T seg);
                               sg_start := round3 (seg_start seg);
                               sg_end := round3 (seg_end seg) |} ])%list HP).
    cbn [pulls] in IH.
    destruct (next q (AtYield _)) as [[p1 g1] ev].
    destruct (pulls (List.length rest) p1 g1) as [[p3 g3] evs3].
    cbn [snd] in *. rewrite IH. cbn [map app].
    rewrite <- app_assoc. reflexivity.
Qed.

(** The events of a call in the [whisper] branch. *)
Lemma whisper_branch_events (p : FasterWhisperPipeline) (m : Whisper)
    (a : Args) :
  model p = IsWhisper m ->
  (suppress_numerals p = true -> tokenizer p <> None) ->
  _batch_size p <> Some 0%nat ->
  let segs := vad p (audio a) (chunk_size a) in
  snd (transcribe p a)
  = (map (fun seg => Yield (TextStr (whisper_text p m (audio a) seg))) segs
     ++ [Return
           {| segments :=
                map (fun seg =>
                       output_segment (whisper_text p m (audio a) seg) seg)
                    segs;
              language := arg_language a |}])%list.
Proof.
  intros Hm Htok Hbs segs. unfold transcribe. fold segs.
  cbn [pulls next]. unfold begin. fold segs.
  unfold resolve_language. rewrite Hm.
  cbn [suppress_numerals set_tokenizer tokenizer options].
  set (local := match batch_size a with
                | Some (S n) => Some (S n)
                | _ => _batch_size p
                end).
  assert (Hstream : forall q,
             model q = IsWhisper m ->
             _batch_size q = _batch_size p ->
             beam_size (options q) = beam_size (options p) ->
             patience (options q) = patience (options p) ->
             length_penalty (options q) = length_penalty (options p) ->
             call_pipeline q (data (audio a) segs) local
             = inr (map (fun seg =>
                           if per_sample local
                           then TextList [whisper_text p m (audio a) seg]
                           else TextStr (whisper_text p m (audio a) seg))
                        segs,
                    None)).
  { intros q Hq Hb H1 H2 H3.
    assert (Hcall : exists n,
               call_pipeline q (data (audio a) segs) local
               = call_pipeline q (data (audio a) segs) (Some (S n))
               /\ per_sample local = (S n =? 1)%nat).
    { unfold local. destruct (batch_size a) as [[| n] |].
      - destruct (_batch_size p) as [[| n] |] eqn:E.
        + congruence.
        + exists n. split; [reflexivity | destruct n; reflexivity].
        + exists 0%nat. split; [| reflexivity].
          unfold call_pipeline. rewrite Hb. reflexivity.
      - exists n. split; [reflexivity | destruct n; reflexivity].
      - destruct (_batch_size p) as [[| n] |] eqn:E.
        + congruence.
        + exists n. split; [reflexivity | destruct n; reflexivity].
        + exists 0%nat. split; [| reflexivity].
          unfold call_pipeline. rewrite Hb. reflexivity. }
    destruct Hcall as [n [-> ->]].
    rewrite (whisper_stream q m _ n Hq). unfold data. rewrite map_map.
    unfold whisper_text. rewrite H1, H2, H3. reflexivity. }
  destruct (suppress_numerals p) eqn:Es.
  - destruct (tokenizer p) as [t |] eqn:Et;
      [| exfalso; apply Htok; reflexivity].
    cbn [_batch_size set_options set_tokenizer count_call]. fold local.
    rewrite Hstream by (first [exact Hm | reflexivity]).
    pose proof (loop_all (whisper_text p m (audio a))
                  (count_call
                     (set_options (set_tokenizer p (Some t))
                        (replace_suppress_tokens (options p)
                           (py_list_set
                              (find_numeral_symbol_tokens t
                               ++ suppress_tokens (options p))))))
                  (arg_language a) (Some (suppress_tokens (options p)))
                  local 0 segs [] []) as Hloop.
    cbn [app List.length] in Hloop.
    cbn [pulls next] in Hloop.
    destruct (resume _ _) as [[p1 g1] ev].
    destruct (pulls _ p1 g1) as [[p2 g2] evs].
    cbn [snd] in *. apply Hloop. intros _. discriminate.
  - cbn [_batch_size set_tokenizer count_call]. fold local.
    rewrite Hstream by (first [exact Hm | reflexivity]).
    pose proof (loop_all (whisper_text p m (audio a))
                  (count_call (set_tokenizer p (tokenizer p)))
                  (arg_language a) None local 0 segs [] []) as Hloop.
    cbn [app List.length] in Hloop.
    cbn [pulls next] in Hloop.
    destruct (resume _ _) as [[p1 g1] ev].
    destruct (pulls _ p1 g1) as [[p2 g2] evs].
    cbn [snd] in *. apply Hloop.
    cbn [suppress_numerals set_tokenizer count_call]. congruence.
Qed.

(** X14: In the [whisper] branch every VAD segment has its output segment,
    in order, with its own times and the text of its own slice, empty
    when every candidate of the slice is rejected; the texts do not
    depend on the batch size.  [generate_segment_batched] is the branch
    that departs from this. *)
Theorem whisper_branch_keeps_slots (p : FasterWhisperPipeline) (m : Whisper)
    (a : Args) :
  model p = IsWhisper m ->
  (suppress_numerals p = true -> tokenizer p <> None) ->
  _batch_size p <> Some 0%nat ->
  let segs := vad p (audio a) (chunk_size a) in
  snd (transcribe p a)
  = (map (fun seg => Yield (TextStr (whisper_text p m (audio a) seg))) segs
     ++ [Return
           {| segments :=
                map (fun seg =>
                       output_segment (whisper_text p m (audio a) seg) seg)
                    segs;
              language := arg_language a |}])%list.
Proof. exact (whisper_branch_events p m a). Qed.

End WhisperBranch.

(** * Further properties of the filters *)

(** X2: The phrase penalties never raise a score, and at either call site
    they cannot lower it by more than the sum over both lists: 6.45 in
    [generate_segment_batched], 4.9 in the [whisper] branch. *)
Theorem penalty_bounds (text : string) (avg : Q) :
  Batched.adjusted text avg <= avg
  /\ avg - (645 # 100) <= Batched.adjusted text avg
  /\ Forward.adjusted text avg <= avg
  /\ avg - (49 # 10) <= Forward.adjusted text avg.
Proof.
  assert (Hb : forall l, hits l text <= inject_Z (Z.of_nat (List.length l))).
  { intro l. unfold hits, matching. rewrite <- Zle_Qle.
    apply Nat2Z.inj_le. apply filter_length_le. }
  pose proof (Hb Batched.suppress_low) as H1.
  pose proof (Hb Batched.suppress_high) as H2.
  pose proof (Hb Forward.suppress_low) as H3.
  pose proof (Hb Forward.suppress_high) as H4.
  pose proof (hits_nonneg Batched.suppress_low text) as N1.
  pose proof (hits_nonneg Batched.suppress_high text) as N2.
  pose proof (hits_nonneg Forward.suppress_low text) as N3.
  pose proof (hits_nonneg Forward.suppress_high text) as N4.
  unfold Batched.adjusted, Forward.adjusted.
  rewrite !adjust_hits. unfold P_low, P_high.
  change (inject_Z (Z.of_nat (List.length Batched.suppress_low))) with 8 in H1.
  change (inject_Z (Z.of_nat (List.length Batched.suppress_high))) with 15 in H2.
  change (inject_Z (Z.of_nat (List.length Forward.suppress_low))) with 7 in H3.
  change (inject_Z (Z.of_nat (List.length Forward.suppress_high))) with 11 in H4.
  repeat split; lra.
Qed.

(** X3: With the same text and the same other signals, a lower score is
    never kept where a higher one is dropped: at both call sites
    rejection is preserved when [avg_logprob] goes down. *)
Theorem rejection_monotone (a b nsp cr : Q) (text : string) :
  a <= b ->
  (Batched.rejects b nsp text = true -> Batched.rejects a nsp text = true)
  /\ (Forward.rejects {| Forward.text := text; Forward.avg_logprob := b;
                         Forward.no_speech_prob := nsp;
                         Forward.compression_ratio := cr |} = true ->
      Forward.rejects {| Forward.text := text; Forward.avg_logprob := a;
                         Forward.no_speech_prob := nsp;
                         Forward.compression_ratio := cr |} = true).
Proof.
  intro Hab.
  assert (Hadj : forall low high,
             adjust low high text a <= adjust low high text b)
    by (intros low high; rewrite !adjust_hits; lra).
  split.
  - unfold Batched.rejects, Batched.adjusted.
    rewrite !orb_true_iff, !Qltb_lt.
    intros [H | H]; [left | right; exact H].
    apply Qle_lt_trans with (y := adjust Batched.suppress_low
                                    Batched.suppress_high text b);
      [apply Hadj | exact H].
  - unfold Forward.rejects, Forward.adjusted. simpl.
    rewrite !orb_true_iff, !andb_true_iff, !Qltb_lt.
    pose proof (Hadj Forward.suppress_low Forward.suppress_high) as Hle.
    intros [[[[H1 H2] | [H1 H2]] | H] | H].
    + left. left. left. split; [| exact H2].
      apply Qle_lt_trans with (y := adjust Forward.suppress_low
                                      Forward.suppress_high text b);
        assumption.
    + left. left. right. split; [| exact H2].
      apply Qle_lt_trans with (y := adjust Forward.suppress_low
                                      Forward.suppress_high text b);
        assumption.
    + left. right. exact H.
    + right. exact H.
Qed.

Lemma rejection_monotone_witness :
  (Batched.rejects (-(11 # 10)) (1 # 10) "xin" = true ->
   Batched.rejects (-(2)) (1 # 10) "xin" = true)
  /\ (Forward.rejects {| Forward.text := "xin";
                         Forward.avg_logprob := -(11 # 10);
                         Forward.no_speech_prob := 1 # 10;
                         Forward.compression_ratio := 3 |} = true ->
      Forward.rejects {| Forward.text := "xin";
                         Forward.avg_logprob := -(2);
                         Forward.no_speech_prob := 1 # 10;
                         Forward.compression_ratio := 3 |} = true).
Proof.
  apply (rejection_monotone (-(2)) (-(11 # 10)) (1 # 10) 3 "xin").
  discriminate.
Defined.

Lemma filter_length_all {A : Type} (f : A -> bool) (l : list A) :
  List.length (filter f l) = List.length l
  <-> forall x, In x l -> f x = true.
Proof.
  induction l as [| x rest IH]; simpl.
  - split; [intros _ y [] | reflexivity].
  - pose proof (filter_length_le f rest) as Hle.
    destruct (f x) eqn:E; simpl.
    + split.
      * intros Hlen y [<- | Hy]; [exact E |].
        apply IH; [lia | exact Hy].
      * intro Hall. f_equal. apply IH. intros y Hy. apply Hall. right. exact Hy.
    + split; [lia |].
      intro Hall. specialize (Hall x (or_introl eq_refl)). congruence.
Qed.

(** X4: [generate_segment_batched] returns the decoded texts of the rows
    that pass its filter, in the order of the rows: never more texts
    than rows, and as many as rows only when no row is rejected. *)
Theorem filter_results_kept (decode : list Z -> string) (lp : nat)
    (results : list Batched.GenerationResult) :
  let keep := fun r =>
                negb (Batched.rejects (Batched.avg_logprob lp r)
                        (Batched.no_speech_prob r)
                        (decode (Batched.sequences_ids0 r))) in
  Batched.filter_results decode lp results
  = map (fun r => decode (Batched.sequences_ids0 r)) (filter keep results)
  /\ (List.length (Batched.filter_results decode lp results)
      <= List.length results)%nat
  /\ (List.length (Batched.filter_results decode lp results)
      = List.length results
      <-> forall r, In r results -> keep r = true).
Proof.
  intro keep.
  assert (Heq : Batched.filter_results decode lp results
                = map (fun r => decode (Batched.sequences_ids0 r))
                      (filter keep results)).
  { induction results as [| r rest IH]; simpl.
    - reflexivity.
    - unfold Batched.contributes, keep at 1.
      destruct (Batched.rejects _ _ _); simpl; rewrite IH; reflexivity. }
  split; [exact Heq |].
  rewrite Heq, length_map. split.
  - apply filter_length_le.
  - apply filter_length_all.
Qed.

(** X5: Nothing that [generate_segment_batched] returns comes from a row
    scored below -1.0 or with [no_speech_prob] above 0.7. *)
Theorem batched_output_sound (decode : list Z -> string) (lp : nat)
    (results : list Batched.GenerationResult) (t : string) :
  In t (Batched.filter_results decode lp results) ->
  exists r,
    In r results
    /\ t = decode (Batched.sequences_ids0 r)
    /\ -(1) <= Batched.avg_logprob lp r
    /\ Batched.no_speech_prob r <= 7 # 10.
Proof.
  induction results as [| r rest IH]; simpl; [intros [] |].
  intro H. apply in_app_or in H. destruct H as [H | H].
  - unfold Batched.contributes in H.
    destruct (Batched.rejects _ _ _) eqn:E; [destruct H |].
    destruct H as [<- | []].
    unfold Batched.rejects in E. apply orb_false_iff in E.
    destruct E as [E1 E2]. apply Qltb_ge in E1, E2.
    exists r. repeat split; try (left; reflexivity); try assumption.
    apply Qle_trans with (y := Batched.adjusted
                                 (decode (Batched.sequences_ids0 r))
                                 (Batched.avg_logprob lp r));
      [exact E1 | apply adjust_le].
  - destruct (IH H) as [r' [Hin Hr']]. exists r'. split; [right |]; assumption.
Qed.

Lemma batched_output_sound_witness :
  exists r,
    In r [ {| Batched.sequences_ids0 := [0%Z; 1%Z];
              Batched.scores0 := -(3 # 10);
              Batched.no_speech_prob := 1 # 10 |} ]
    /\ "xin chào" = Demo.decode_tokens (Batched.sequences_ids0 r)
    /\ -(1) <= Batched.avg_logprob 1 r
    /\ Batched.no_speech_prob r <= 7 # 10.
Proof.
  apply (batched_output_sound Demo.decode_tokens 1
           [ {| Batched.sequences_ids0 := [0%Z; 1%Z];
                Batched.scores0 := -(3 # 10);
                Batched.no_speech_prob := 1 # 10 |} ] "xin chào").
  vm_compute. left. reflexivity.
Defined.

(** X6: Every text that the [whisper] branch keeps for an input is the text
    of a segment that is not blank, has [no_speech_prob] at most 0.7,
    and has a compression ratio between 1 and 2 whenever its score after
    penalties is below -0.5. *)
Theorem forward_output_sound (result : list Forward.Segment) (t : string) :
  In t (Forward.accepted result) ->
  exists r,
    In r result
    /\ t = Forward.text r
    /\ PyStr.strip t <> ""
    /\ Forward.no_speech_prob r <= 7 # 10
    /\ (Forward.adjusted (Forward.text r) (Forward.avg_logprob r) < -(1 # 2) ->
        1 <= Forward.compression_ratio r <= 2).
Proof.
  induction result as [| r rest IH]; simpl; [intros [] |].
  intro H. apply in_app_or in H. destruct H as [H | H].
  - unfold Forward.contributes in H.
    destruct (Forward.rejects r) eqn:E; [destruct H |].
    destruct H as [<- | []].
    unfold Forward.rejects in E.
    repeat (apply orb_false_iff in E; destruct E as [E ?]).
    exists r. split; [left; reflexivity |]. split; [reflexivity |].
    split; [apply String.eqb_neq; assumption |].
    split; [apply Qltb_ge; assumption |].
    intro Hlow. apply Qltb_lt in Hlow. rewrite Hlow in *. simpl in *.
    split; apply Qltb_ge; assumption.
  - destruct (IH H) as [r' [Hin Hr']]. exists r'. split; [right |]; assumption.
Qed.

Lemma forward_output_sound_witness :
  exists r,
    In r [ {| Forward.text := "xin chào"; Forward.avg_logprob := -(2 # 10);
              Forward.no_speech_prob := 1 # 10;
              Forward.compression_ratio := 3 # 2 |} ]
    /\ "xin chào" = Forward.text r
    /\ PyStr.strip "xin chào" <> ""
    /\ Forward.no_speech_prob r <= 7 # 10
    /\ (Forward.adjusted (Forward.text r) (Forward.avg_logprob r) < -(1 # 2) ->
        1 <= Forward.compression_ratio r <= 2).
Proof.
  apply (forward_output_sound
           [ {| Forward.text := "xin chào"; Forward.avg_logprob := -(2 # 10);
                Forward.no_speech_prob := 1 # 10;
                Forward.compression_ratio := 3 # 2 |} ] "xin chào").
  vm_compute. left. reflexivity.
Defined.

(** * Further properties of the segment source *)

Lemma firstn_plus {A : Type} (m p : nat) : forall l : list A,
  firstn (m + p) l = (firstn m l ++ firstn p (skipn m l))%list.
Proof.
  induction m as [| m IH]; intros l.
  - reflexivity.
  - destruct l as [| x l]; simpl.
    + rewrite firstn_nil. reflexivity.
    + rewrite IH. reflexivity.
Qed.

(** Two slices that share a bound join into one: [a[i:j] + a[j:k]] is
    [a[i:k]] for [0 <= i <= j <= k]. *)
Lemma py_slice_join {A : Type} (a : list A) (i j k : Z) :
  (0 <= i)%Z -> (i <= j)%Z -> (j <= k)%Z ->
  (py_slice a i j ++ py_slice a j k)%list = py_slice a i k.
Proof.
  intros Hi Hij Hjk. unfold py_slice, slice_bound.
  destruct (Z.ltb_spec i 0) as [? | _]; [lia |].
  destruct (Z.ltb_spec j 0) as [? | _]; [lia |].
  destruct (Z.ltb_spec k 0) as [? | _]; [lia |].
  set (n := Z.of_nat (List.length a)).
  set (hi := Z.min i n). set (hj := Z.min j n). set (hk := Z.min k n).
  replace (Z.to_nat (hk - hi))
    with (Z.to_nat (hj - hi) + Z.to_nat (hk - hj))%nat by lia.
  rewrite firstn_plus, skipn_skipn.
  replace (Z.to_nat (hj - hi) + Z.to_nat hi)%nat with (Z.to_nat hj) by lia.
  reflexivity.
Qed.

(** X7: Two VAD segments that abut give two slices that together are the
    slice of their union: no sample is read twice and none is skipped. *)
Theorem data_abutting_segments (audio : Waveform) (a b c : Q) :
  0 <= a -> a <= b -> b <= c ->
  List.concat (data audio [ {| seg_start := a; seg_end := b |};
                            {| seg_start := b; seg_end := c |} ])
  = List.concat (data audio [ {| seg_start := a; seg_end := c |} ]).
Proof.
  intros Ha Hab Hbc. unfold data. cbn [map List.concat seg_start seg_end].
  rewrite !app_nil_r.
  apply py_slice_join.
  - apply sample_index_nonneg. exact Ha.
  - apply sample_index_le; assumption.
  - apply sample_index_le; [apply (Qle_trans _ a); assumption | exact Hbc].
Qed.

Lemma data_abutting_segments_witness :
  List.concat (data [10; 20; 30]
                 [ {| seg_start := 0; seg_end := 1 # 16000 |};
                   {| seg_start := 1 # 16000; seg_end := 1 |} ])
  = List.concat (data [10; 20; 30] [ {| seg_start := 0; seg_end := 1 |} ]).
Proof.
  apply (data_abutting_segments [10; 20; 30] 0 (1 # 16000) 1); discriminate.
Defined.

(** X8: A segment that ends no later than it starts, or whose start, as
    a float, is at or after the end of the waveform, gives an empty
    slice and no error.  (A waveform has fewer than 2^53 samples.) *)
Theorem data_empty_slices (audio : Waveform) (seg : AudioSegment) :
  0 <= seg_start seg ->
  0 <= seg_end seg ->
  (Z.of_nat (List.length audio) < 2 ^ 53)%Z ->
  seg_end seg <= seg_start seg
  \/ inject_Z (Z.of_nat (List.length audio))
     <= fl64 (seg_start seg) * inject_Z SAMPLE_RATE ->
  data audio [seg] = [[]].
Proof.
  intros Hs He Hlen Hcase. unfold data. cbn [map]. f_equal.
  pose proof (sample_index_nonneg _ Hs) as H1.
  pose proof (sample_index_nonneg _ He) as H2.
  unfold py_slice, slice_bound.
  destruct (Z.ltb_spec (sample_index (seg_start seg)) 0) as [? | _]; [lia |].
  destruct (Z.ltb_spec (sample_index (seg_end seg)) 0) as [? | _]; [lia |].
  destruct Hcase as [Hinv | Hout].
  - pose proof (sample_index_le _ _ He Hinv) as Hle.
    replace (Z.to_nat _) with 0%nat by lia. reflexivity.
  - assert (Hge : (Z.of_nat (List.length audio)
                   <= sample_index (seg_start seg))%Z).
    { unfold sample_index.
      set (L := Z.of_nat (List.length audio)) in *.
      assert (QL : 0 <= inject_Z L)
        by (change 0 with (inject_Z 0); rewrite <- Zle_Qle; lia).
      assert (Hfl : inject_Z L
                    <= fl64 (fl64 (seg_start seg) * inject_Z SAMPLE_RATE)).
      { rewrite <- (fl64_Z L) by lia. apply fl64_le; assumption. }
      rewrite py_int_floor by (apply (Qle_trans _ (inject_Z L)); assumption).
      rewrite <- (Qfloor_Z L). apply Qfloor_resp_le. exact Hfl. }
    replace (Z.to_nat _) with 0%nat by lia. reflexivity.
Qed.

Lemma data_empty_slices_witness :
  data [10; 20; 30] [ {| seg_start := 1; seg_end := 2 |} ] = [[]].
Proof.
  apply (data_empty_slices [10; 20; 30] {| seg_start := 1; seg_end := 2 |}).
  - discriminate.
  - discriminate.
  - reflexivity.
  - right. vm_compute. discriminate.
Defined.

(** X9: [int] cuts toward zero: a time that is not negative is never
    rounded up, and one that is not positive is never rounded down. *)
Theorem py_int_toward_zero (x : Q) :
  (0 <= x -> inject_Z (py_int x) <= x /\ x < inject_Z (py_int x) + 1)
  /\ (x <= 0 -> inject_Z (py_int x) - 1 < x /\ x <= inject_Z (py_int x)).
Proof.
  split; intro H.
  - rewrite (py_int_floor x H). split.
    + apply Qfloor_le.
    + pose proof (Qlt_floor x) as Hlt. rewrite inject_Z_plus in Hlt. exact Hlt.
  - assert (Hneg : 0 <= - x) by lra.
    assert (Hopp : py_int x = (- py_int (- x))%Z).
    { unfold py_int. destruct x as [n d]. simpl.
      rewrite Z.quot_opp_l by lia. lia. }
    rewrite Hopp, (py_int_floor _ Hneg), inject_Z_opp.
    pose proof (Qfloor_le (- x)) as H1.
    pose proof (Qlt_floor (- x)) as H2. rewrite inject_Z_plus in H2.
    change (inject_Z 1) with 1 in H2.
    set (f := inject_Z (Qfloor (- x))) in *.
    split; lra.
Qed.

(** * Further properties of the output times and of the progress *)

Lemma round3_scaled (x : Q) : round3 x == inject_Z (py_round (x * 1000)) / 1000.
Proof.
  unfold round3, Qeq, Qdiv, Qmult, Qinv, inject_Z. simpl. lia.
Qed.

(** X10: [round(t, 3)] moves a time by at most half a millisecond and keeps
    the order of two times: an output segment never ends before it
    starts when its VAD segment does not. *)
Theorem round3_keeps_order (x y : Q) :
  x <= y ->
  round3 x <= round3 y
  /\ round3 x - (1 # 2000) <= x
  /\ x <= round3 x + (1 # 2000).
Proof.
  intro Hxy.
  assert (Hs : x * 1000 <= y * 1000) by lra.
  pose proof (py_round_le _ _ Hs) as Hr.
  pose proof (py_round_near (x * 1000)) as [N1 N2].
  split; [| split].
  - unfold round3, Qle. simpl. lia.
  - rewrite round3_scaled.
    set (r := inject_Z (py_round (x * 1000))) in *.
    unfold Qdiv. change (/ 1000) with (1 # 1000). lra.
  - rewrite round3_scaled.
    set (r := inject_Z (py_round (x * 1000))) in *.
    unfold Qdiv. change (/ 1000) with (1 # 1000). lra.
Qed.

Lemma round3_keeps_order_witness :
  round3 (12345 # 10000) <= round3 (2 # 1)
  /\ round3 (12345 # 10000) - (1 # 2000) <= 12345 # 10000
  /\ 12345 # 10000 <= round3 (12345 # 10000) + (1 # 2000).
Proof.
  apply (round3_keeps_order (12345 # 10000) (2 # 1)). discriminate.
Defined.



(** * Further properties of the numeral suppression *)

Lemma contains_skip_space (c : ascii) (t rest : string) :
  c <> " "%char ->
  PyStr.contains (String c t) (String " " rest)
  = PyStr.contains (String c t) rest.
Proof.
  intro Hc. rewrite contains_cons. cbn [String.prefix].
  destruct (Ascii.ascii_dec c " ") as [E | _]; [contradiction | reflexivity].
Qed.

Lemma substring_all (s : string) : String.substring 0 (String.length s) s = s.
Proof. induction s as [| c s IH]; simpl; [| rewrite IH]; reflexivity. Qed.

(** Dropping the leading space of a token does not change whether it
    holds a digit or one of the three symbols. *)
Lemma has_numeral_symbol_removeprefix (s : string) :
  has_numeral_symbol (removeprefix " " s) = has_numeral_symbol s.
Proof.
  unfold removeprefix. destruct s as [| c rest]; [reflexivity |].
  cbn [String.prefix]. destruct (Ascii.ascii_dec " " c) as [<- | _].
  - destruct rest as [| d rest'].
    + reflexivity.
    + cbn [String.prefix String.length]. 
      replace (S (S (String.length rest')) - 1)%nat
        with (String.length (String d rest')) by (simpl; lia).
      change (String.substring 1 (String.length (String d rest'))
                (String " " (String d rest')))
        with (String.substring 0 (String.length (String d rest'))
                (String d rest')).
      rewrite substring_all.
      unfold has_numeral_symbol. cbn [existsb].
      rewrite !contains_skip_space by discriminate. reflexivity.
  - reflexivity.
Qed.

(** X1: [find_numeral_symbol_tokens] returns, without repetition, exactly
    the token ids below [eot] whose text holds a digit, "%", "$" or "£";
    the leading space that is dropped plays no part. *)
Theorem numeral_tokens_spec (tokenizer : Tokenizer) :
  (forall i,
      In i (find_numeral_symbol_tokens tokenizer)
      <-> (0 <= i < Z.of_nat (eot tokenizer))%Z
          /\ has_numeral_symbol (decode tokenizer [i]) = true)
  /\ NoDup (find_numeral_symbol_tokens tokenizer).
Proof.
  unfold find_numeral_symbol_tokens. split.
  - intro i. rewrite filter_In, in_map_iff, has_numeral_symbol_removeprefix.
    split.
    + intros [[n [<- Hn]] Hs]. apply in_seq in Hn. split; [lia | exact Hs].
    + intros [Hi Hs]. split; [| exact Hs].
      exists (Z.to_nat i). split; [lia |]. apply in_seq. lia.
  - apply NoDup_filter. apply NoDup_map_NoDup_ForallPairs.
    + intros x y _ _ H. apply Nat2Z.inj. exact H.
    + apply seq_NoDup.
Qed.

Section Override.

Context {audio_module : AudioModule}.

(** X12: When the override of lines 419-425 is installed, [suppress_tokens]
    holds, without repetition, exactly the numeral tokens of the
    tokenizer of the call and the tokens that were there before: no
    token of the caller is lost. *)
Theorem numeral_override_contents (p : FasterWhisperPipeline) (a : Args)
    (tok : Tokenizer) :
  suppress_numerals p = true ->
  tokenizer (prepared p a) = Some tok ->
  NoDup (suppress_tokens (options (prepared p a)))
  /\ forall x,
       In x (suppress_tokens (options (prepared p a)))
       <-> In x (find_numeral_symbol_tokens tok)
           \/ In x (suppress_tokens (options p)).
Proof.
  unfold prepared, begin. intros Hs.
  destruct (resolve_language p a) as [[lang calls] t].
  cbn [suppress_numerals set_tokenizer tokenizer options]. rewrite Hs.
  destruct t as [t |].
  - destruct (call_pipeline _ _ _) as [e | [items err]]; cbn;
      intro Ht; inversion Ht; subst; unfold py_list_set;
      (split; [apply NoDup_nodup |]);
      intro x; rewrite nodup_In, in_app_iff; reflexivity.
  - cbn. discriminate.
Qed.

(** X13: With [suppress_numerals] and no tokenizer at line 421, the first
    [next] raises [AttributeError]; nothing is yielded and the options
    are as before the call. *)
Theorem numerals_without_tokenizer (p : FasterWhisperPipeline) (a : Args) :
  suppress_numerals p = true ->
  tokenizer (prepared p a) = None ->
  snd (transcribe p a) = [Raise AttributeError]
  /\ options (fst (fst (transcribe p a))) = options p.
Proof.
  unfold prepared, transcribe. intros Hs.
  cbn [pulls next]. unfold begin.
  destruct (resolve_language p a) as [[lang calls] t].
  cbn [suppress_numerals set_tokenizer tokenizer options]. rewrite Hs.
  destruct t as [t |].
  - destruct (call_pipeline _ _ _) as [e | [items err]]; cbn; discriminate.
  - cbn. intros _. rewrite pulls_finished. split; reflexivity.
Qed.

End Override.

Lemma numeral_override_contents_witness :
  NoDup (suppress_tokens
           (options (prepared (audio_module := Demo.audio_module)
                       Demo.whisper_pipeline (Demo.with_batch_size 1))))
  /\ forall x,
       In x (suppress_tokens
               (options (prepared (audio_module := Demo.audio_module)
                           Demo.whisper_pipeline (Demo.with_batch_size 1))))
       <-> In x (find_numeral_symbol_tokens
                   (Demo.tok (Some "transcribe") (Some "vi")))
           \/ In x (suppress_tokens (options Demo.whisper_pipeline)).
Proof.
  apply (numeral_override_contents (audio_module := Demo.audio_module)
           Demo.whisper_pipeline (Demo.with_batch_size 1)
           (Demo.tok (Some "transcribe") (Some "vi")));
    reflexivity.
Defined.

Lemma numerals_without_tokenizer_witness :
  snd (transcribe (audio_module := Demo.audio_module)
         DemoRuntime.no_tokenizer (Demo.with_batch_size 1))
  = [Raise AttributeError]
  /\ options (fst (fst (transcribe (audio_module := Demo.audio_module)
                          DemoRuntime.no_tokenizer (Demo.with_batch_size 1))))
     = options DemoRuntime.no_tokenizer.
Proof.
  apply (numerals_without_tokenizer (audio_module := Demo.audio_module)
           DemoRuntime.no_tokenizer (Demo.with_batch_size 1));
    reflexivity.
Defined.


(** * Further properties of the generator *)

Section Alignment.

Context {audio_module : AudioModule}.

Lemma aligned_length (V : list AudioSegment) (S0 : list SingleSegment) :
  aligned V S0 -> (List.length S0 <= List.length V)%nat.
Proof.
  intro Hal.
  destruct (List.length S0) as [| n] eqn:En; [lia |].
  destruct (nth_error S0 n) as [s |] eqn:E.
  - destruct (Hal _ _ E) as [v [Hv _]].
    assert (n < List.length V)%nat by (apply nth_error_Some; congruence).
    lia.
  - apply nth_error_None in E. lia.
Qed.

(** The segments of the frame go with the VAD segments by index. *)
Lemma aligned_step (V : list AudioSegment) (S0 : list SingleSegment)
    (t : Text) (seg : AudioSegment) :
  nth_error V (List.length S0) = Some seg ->
  aligned V S0 ->
  aligned V (S0 ++ [ {| sg_text := t; sg_start := round3 (seg_start seg);
                        sg_end := round3 (seg_end seg) |} ])%list.
Proof.
  intros Hseg Hold i s Hi.
  destruct (Nat.lt_ge_cases i (List.length S0)) as [Hlt | Hge].
  - rewrite nth_error_app1 in Hi by exact Hlt. exact (Hold i s Hi).
  - rewrite nth_error_app2 in Hi by exact Hge.
    destruct (i - List.length S0)%nat as [| k] eqn:E.
    + simpl in Hi. inversion Hi; subst. simpl.
      replace i with (List.length S0) by lia.
      exists seg. repeat split. exact Hseg.
    + simpl in Hi. destruct k; discriminate.
Qed.

Lemma finish_no_yield (q q' : FasterWhisperPipeline) (f : Frame)
    (g : Generator) (ev : Event) :
  finish q f = (q', g, ev) -> yielded [ev] = [].
Proof.
  unfold finish. intro H.
  destruct ev; try reflexivity. exfalso.
  destruct (suppress_numerals _);
    [destruct (f_previous_suppress_tokens f) |]; discriminate.
Qed.

Lemma pulls_aligned (k : nat) : forall (q : FasterWhisperPipeline) (f : Frame)
    (q' : FasterWhisperPipeline) (g : Generator) (evs : list Event),
  pulls k q (AtYield f) = (q', g, evs) ->
  List.length (f_segments f) = f_idx f ->
  aligned (f_vad_segments f) (f_segments f) ->
  (f_idx f + List.length (yielded evs) <= List.length (f_vad_segments f))%nat
  /\ forall r, In (Return r) evs ->
       List.length (segments r)
       = (List.length (f_segments f) + List.length (yielded evs))%nat
       /\ aligned (f_vad_segments f) (segments r).
Proof.
  induction k as [| k IH]; intros q f q' g evs H Hlen Hal;
    pose proof (aligned_length _ _ Hal) as Hle.
  - inversion H; subst. simpl. split; [lia | intros r []].
  - cbn [pulls next] in H.
    destruct (resume_cases q f) as [[t [seg [Hseg Hr]]] | [[e Hr] | Hr]].
    + rewrite Hr in H.
      destruct (pulls k q (AtYield _)) as [[p2 g2] evs2] eqn:E.
      inversion H; subst; clear H.
      rewrite <- Hlen in Hseg.
      specialize (IH _ _ _ _ _ E).
      cbn [f_segments f_idx f_vad_segments] in IH.
      destruct IH as [Hb Hret].
      * rewrite length_app. simpl. lia.
      * apply aligned_step; assumption.
      * cbn [yielded List.length]. split; [lia |].
        intros r [Hin | Hin]; [discriminate |].
        destruct (Hret r Hin) as [Hl Ha]. split; [| exact Ha].
        rewrite Hl, length_app. simpl. lia.
    + rewrite Hr, pulls_finished in H. inversion H; subst; clear H.
      cbn [yielded List.length]. split; [lia |].
      intros r [Hin | []]. discriminate.
    + rewrite Hr in H.
      destruct (finish q f) as [[p1 g1] ev] eqn:E.
      destruct (finish_spec _ _ _ _ _ E) as [-> [_ Hret]].
      rewrite pulls_finished in H. inversion H; subst; clear H.
      rewrite (finish_no_yield _ _ _ _ _ E). simpl. split; [lia |].
      intros r [Hin | []]. subst ev.
      destruct (Hret r eq_refl) as [_ [Hsegs _]].
      rewrite Hsegs. split; [lia | exact Hal].
Qed.

(** X16: Whatever the model branch: a call of [transcribe] is over after one
    [next] per VAD segment and one more, it never yields more texts than
    there are VAD segments, and when it returns, the result holds one
    segment per yielded text and the segment of index [i] carries the
    rounded times of the VAD segment of index [i]. *)
Theorem transcribe_segments_by_index (p : FasterWhisperPipeline) (a : Args) :
  let V := vad p (audio a) (chunk_size a) in
  let evs := snd (transcribe p a) in
  snd (fst (transcribe p a)) = Finished
  /\ (List.length (yielded evs) <= List.length V)%nat
  /\ forall r, In (Return r) evs ->
       List.length (segments r) = List.length (yielded evs)
       /\ forall i s, nth_error (segments r) i = Some s ->
            exists v, nth_error V i = Some v
                      /\ sg_start s = round3 (seg_start v)
                      /\ sg_end s = round3 (seg_end v).
Proof.
  intros V evs. split; [apply transcribe_finishes |].
  subst evs. unfold transcribe. fold V.
  destruct (begin p a) as [p1 [e | f]] eqn:E.
  - rewrite (pulls_created_raise _ _ _ _ _ E). cbn. split; [lia |].
    intros r [H | []]. discriminate.
  - rewrite (pulls_created _ _ _ _ _ E).
    destruct (begin_spec _ _ _ _ E) as [_ [_ Hf]].
    destruct (Hf f eq_refl) as [_ [_ [Hv [Hi _]]]].
    assert (Hsegs : f_segments f = []).
    { unfold begin in E.
      destruct (resolve_language p a) as [[lang calls] t].
      cbn [suppress_numerals set_tokenizer tokenizer options] in E.
      destruct (suppress_numerals p); [destruct t |];
        try discriminate;
        destruct (call_pipeline _ _ _) as [e | [items err]];
        inversion E; reflexivity. }
    destruct (pulls _ p1 (AtYield f)) as [[q' g] evs] eqn:Ep.
    destruct (pulls_aligned _ _ _ _ _ _ Ep) as [Hb Hret].
    + rewrite Hsegs, Hi. reflexivity.
    + rewrite Hsegs. intros i s Hn. destruct i; discriminate.
    + cbn [snd]. rewrite Hv, Hi in Hb. split; [exact Hb |].
      intros r Hin. destruct (Hret r Hin) as [Hl Ha].
      rewrite Hsegs in Hl. rewrite Hv in Ha. split; [exact Hl | exact Ha].
Qed.

End Alignment.

(** * Further properties of the pipeline over a call *)

Section Lifetime.

Context {audio_module : AudioModule}.

Lemma finish_fields (q q' : FasterWhisperPipeline) (f : Frame)
    (g : Generator) (ev : Event) :
  finish q f = (q', g, ev) ->
  model q' = model q
  /\ preset_language q' = preset_language q
  /\ suppress_numerals q' = suppress_numerals q
  /\ _batch_size q' = _batch_size q
  /\ vad q' = vad q
  /\ call_count q' = call_count q
  /\ tokenizer q' = match preset_language q with
                    | None => None
                    | Some _ => tokenizer q
                    end.
Proof.
  unfold finish. intro H.
  destruct (preset_language q) as [l |] eqn:Ep;
    cbn [suppress_numerals set_tokenizer options] in H;
    (destruct (suppress_numerals q) eqn:Es;
     [destruct (f_previous_suppress_tokens f) |]);
    inversion H; subst; cbn; rewrite ?Ep, ?Es; repeat split; reflexivity.
Qed.

(** The loop touches nothing of the pipeline; the end of the body sets
    the tokenizer. *)
Lemma pulls_fields (k : nat) : forall (q : FasterWhisperPipeline) (f : Frame)
    (q' : FasterWhisperPipeline) (g : Generator) (evs : list Event),
  pulls k q (AtYield f) = (q', g, evs) ->
  model q' = model q
  /\ preset_language q' = preset_language q
  /\ suppress_numerals q' = suppress_numerals q
  /\ _batch_size q' = _batch_size q
  /\ vad q' = vad q
  /\ call_count q' = call_count q
  /\ (forall r, In (Return r) evs ->
        tokenizer q' = match preset_language q with
                       | None => None
                       | Some _ => tokenizer q
                       end).
Proof.
  induction k as [| k IH]; intros q f q' g evs H.
  - inversion H; subst. repeat split; try reflexivity. intros r [].
  - cbn [pulls next] in H.
    destruct (resume_cases q f) as [[t [seg [_ Hr]]] | [[e Hr] | Hr]].
    + rewrite Hr in H.
      destruct (pulls k q (AtYield _)) as [[p2 g2] evs2] eqn:E.
      inversion H; subst; clear H.
      destruct (IH _ _ _ _ _ E) as [H1 [H2 [H3 [H4 [H5 [H6 H7]]]]]].
      repeat split; try assumption.
      intros r [Hin | Hin]; [discriminate | exact (H7 r Hin)].
    + rewrite Hr, pulls_finished in H. inversion H; subst; clear H.
      repeat split; try reflexivity.
      intros r [Hin | []]. discriminate.
    + rewrite Hr in H.
      destruct (finish q f) as [[p1 g1] ev] eqn:E.
      destruct (finish_spec _ _ _ _ _ E) as [-> _].
      destruct (finish_fields _ _ _ _ _ E) as [H1 [H2 [H3 [H4 [H5 [H6 H7]]]]]].
      rewrite pulls_finished in H. inversion H; subst; clear H.
      repeat split; try assumption. intros r _. exact H7.
Qed.

Lemma begin_fields (p p1 : FasterWhisperPipeline) (a : Args)
    (res : Exception + Frame) :
  begin p a = (p1, res) ->
  model p1 = model p
  /\ preset_language p1 = preset_language p
  /\ suppress_numerals p1 = suppress_numerals p
  /\ _batch_size p1 = _batch_size p
  /\ vad p1 = vad p
  /\ tokenizer p1 = snd (resolve_language p a)
  /\ (suppress_numerals p = false -> options p1 = options p)
  /\ (forall f, res = inr f -> call_count p1 = S (call_count p)).
Proof.
  unfold begin.
  destruct (resolve_language p a) as [[lang calls] tok].
  cbn [fst snd]. cbn [suppress_numerals set_tokenizer tokenizer options].
  destruct (suppress_numerals p) eqn:Es.
  - destruct tok as [t |].
    + destruct (call_pipeline _ _ _) as [e | [items err]];
        intro H; inversion H; subst; clear H; cbn;
        repeat split;
        first [reflexivity | exact Es | discriminate | (intro; discriminate)
               | (intros; reflexivity) | (intros; discriminate)].
    + intro H; inversion H; subst; clear H; cbn.
      repeat split;
        first [reflexivity | exact Es | discriminate | (intro; discriminate)
               | (intros; discriminate)].
  - destruct (call_pipeline _ _ _) as [e | [items err]];
      intro H; inversion H; subst; clear H; cbn;
      repeat split;
      first [reflexivity | exact Es | (intros; reflexivity)
             | (intros; discriminate)].
Qed.

(** The pipeline that a call leaves: every field but the tokenizer and
    the options as before; after a completed call the options as before
    and the tokenizer as line 447 leaves it. *)
Lemma transcribe_fields (p : FasterWhisperPipeline) (a : Args) :
  let p' := fst (fst (transcribe p a)) in
  model p' = model p
  /\ preset_language p' = preset_language p
  /\ suppress_numerals p' = suppress_numerals p
  /\ _batch_size p' = _batch_size p
  /\ vad p' = vad p
  /\ (forall r, In (Return r) (snd (transcribe p a)) ->
        options p' = options p
        /\ tokenizer p' = match preset_language p with
                          | None => None
                          | Some _ => snd (resolve_language p a)
                          end
        /\ call_count p' = S (call_count p)).
Proof.
  unfold transcribe.
  destruct (begin p a) as [p1 [e | f]] eqn:E;
    destruct (begin_fields _ _ _ _ E) as [B1 [B2 [B3 [B4 [B5 [B6 [B7 B8]]]]]]].
  - rewrite (pulls_created_raise _ _ _ _ _ E). cbn [fst snd].
    repeat split; try assumption;
      destruct H as [H | []]; discriminate.
  - rewrite (pulls_created _ _ _ _ _ E).
    destruct (begin_spec _ _ _ _ E) as [Hs1 [Hx Hf]].
    destruct (Hf f eq_refl) as [_ [_ [_ [_ Hprev]]]].
    destruct (pulls _ p1 (AtYield f)) as [[q' g] evs] eqn:Ep.
    destruct (pulls_fields _ _ _ _ _ _ Ep) as [H1 [H2 [H3 [H4 [H5 [H6 H7]]]]]].
    destruct (pulls_at_yield _ _ _ _ _ _ Ep) as [_ Hr].
    cbn [fst snd].
    split; [congruence |]. split; [congruence |]. split; [congruence |].
    split; [congruence |]. split; [congruence |].
    intros r Hret. split; [| split].
    + destruct (Hr r Hret) as [_ [Ho0 Ho1]].
      destruct (suppress_numerals p) eqn:Es.
      * rewrite (Ho1 _ (eq_trans Hs1 eq_refl) (Hprev eq_refl)).
        rewrite Hx. apply replace_same.
      * rewrite (Ho0 (eq_trans Hs1 eq_refl)). apply B7. reflexivity.
    + rewrite (H7 r Hret), B2, B6. reflexivity.
    + rewrite H6. apply (B8 f eq_refl).
Qed.

Lemma pipeline_eq (p q : FasterWhisperPipeline) :
  model p = model q -> tokenizer p = tokenizer q -> options p = options q ->
  preset_language p = preset_language q ->
  suppress_numerals p = suppress_numerals q ->
  _batch_size p = _batch_size q -> call_count p = call_count q ->
  vad p = vad q -> p = q.
Proof.
  destruct p, q. cbn. intros; subst. reflexivity.
Qed.

Lemma resolve_language_other (p : FasterWhisperPipeline) (a : Args) :
  (forall m, model p <> IsWhisperModel m) ->
  resolve_language p a = (arg_language a, 0%nat, tokenizer p).
Proof.
  intro H. unfold resolve_language.
  destruct (model p) as [m | m | m]; try reflexivity.
  exfalso. exact (H m eq_refl).
Qed.

(** Without a tokenizer at line 421 the first [next] raises. *)
Lemma begin_without_tokenizer (p : FasterWhisperPipeline) (a : Args) :
  suppress_numerals p = true ->
  snd (resolve_language p a) = None ->
  snd (transcribe p a) = [Raise AttributeError].
Proof.
  unfold transcribe. intros Hs Ht.
  cbn [pulls next]. unfold begin.
  destruct (resolve_language p a) as [[lang calls] t].
  cbn [snd] in Ht. subst t.
  cbn [suppress_numerals set_tokenizer tokenizer options]. rewrite Hs.
  rewrite pulls_finished. reflexivity.
Qed.

(** X17: Whatever the model and whether or not the call completes,
    [transcribe] leaves the model, the VAD, the preset language, the
    batch size and the numeral switch of the pipeline as they were.  A
    completed call also leaves the options as they were, and the
    tokenizer of the call when a language is preset, none otherwise: so
    with a faster-whisper model and no preset language, the next call
    without a language detects it anew. *)
Theorem pipeline_after_transcribe (p : FasterWhisperPipeline) (a : Args) :
  let p' := fst (fst (transcribe p a)) in
  (model p' = model p
   /\ preset_language p' = preset_language p
   /\ suppress_numerals p' = suppress_numerals p
   /\ _batch_size p' = _batch_size p
   /\ vad p' = vad p)
  /\ forall r, In (Return r) (snd (transcribe p a)) ->
       options p' = options p
       /\ tokenizer p' = match preset_language p with
                         | None => None
                         | Some _ => snd (resolve_language p a)
                         end
       /\ forall m a', model p = IsWhisperModel m ->
            preset_language p = None ->
            truthy (arg_language a') = false ->
            detect_language_calls p' a' = 1%nat.
Proof.
  intro p'.
  destruct (transcribe_fields p a) as [H1 [H2 [H3 [H4 [H5 H6]]]]].
  fold p' in H1, H2, H3, H4, H5, H6.
  split; [repeat split; assumption |].
  intros r Hret. destruct (H6 r Hret) as [Ho [Ht _]].
  split; [exact Ho |]. split; [exact Ht |].
  intros m a' Hm Hp Hl.
  apply (proj1 (detect_language_calls_spec p' a')).
  split; [exact Hl |]. split.
  - exists m. congruence.
  - rewrite Ht, Hp. reflexivity.
Qed.

(** X18: With a model other than faster-whisper and a preset language, a
    completed call leaves the pipeline as it found it but for
    [call_count], which is one higher. *)
Theorem completed_call_restores_pipeline (p : FasterWhisperPipeline)
    (a : Args) (l : string) (r : TranscriptionResult) :
  (forall m, model p <> IsWhisperModel m) ->
  preset_language p = Some l ->
  In (Return r) (snd (transcribe p a)) ->
  fst (fst (transcribe p a)) = count_call p.
Proof.
  intros Hm Hp Hret.
  destruct (transcribe_fields p a) as [H1 [H2 [H3 [H4 [H5 H6]]]]].
  destruct (H6 r Hret) as [Ho [Ht Hc]].
  rewrite Hp, (resolve_language_other p a Hm) in Ht. cbn [snd] in Ht.
  apply pipeline_eq; cbn [count_call model tokenizer options preset_language
                            suppress_numerals _batch_size call_count vad];
    assumption.
Qed.

(** X19: With a model other than faster-whisper, no preset language and
    [suppress_numerals], the pipeline works once: a completed call drops
    the tokenizer, nothing sets it again, and every later call raises
    [AttributeError] at line 421 before it yields anything. *)
Theorem second_call_raises (p : FasterWhisperPipeline) (a a' : Args)
    (r : TranscriptionResult) :
  (forall m, model p <> IsWhisperModel m) ->
  preset_language p = None ->
  suppress_numerals p = true ->
  In (Return r) (snd (transcribe p a)) ->
  snd (transcribe (fst (fst (transcribe p a))) a') = [Raise AttributeError].
Proof.
  intros Hm Hp Hs Hret.
  destruct (transcribe_fields p a) as [H1 [H2 [H3 [H4 [H5 H6]]]]].
  destruct (H6 r Hret) as [Ho [Ht _]]. rewrite Hp in Ht.
  apply begin_without_tokenizer; [congruence |].
  rewrite resolve_language_other; [exact Ht |].
  intros m Hm'. apply (Hm m). congruence.
Qed.


End Lifetime.

Lemma completed_call_restores_pipeline_witness :
  fst (fst (transcribe (audio_module := Demo.audio_module)
              Demo.whisper_pipeline (Demo.with_batch_size 2)))
  = count_call Demo.whisper_pipeline.
Proof.
  apply (completed_call_restores_pipeline (audio_module := Demo.audio_module)
           Demo.whisper_pipeline (Demo.with_batch_size 2) "vi"
           Demo.whisper_result).
  - intros m H. discriminate.
  - reflexivity.
  - vm_compute. right. right. left. reflexivity.
Defined.

Lemma second_call_raises_witness :
  snd (transcribe (audio_module := Demo.audio_module)
         (fst (fst (transcribe (audio_module := Demo.audio_module)
                      DemoRuntime.multilingual (Demo.with_batch_size 2))))
         (Demo.with_batch_size 2))
  = [Raise AttributeError].
Proof.
  apply (second_call_raises (audio_module := Demo.audio_module)
           DemoRuntime.multilingual (Demo.with_batch_size 2)
           (Demo.with_batch_size 2) Demo.whisper_result).
  - intros m H. discriminate.
  - reflexivity.
  - reflexivity.
  - vm_compute. right. right. left. reflexivity.
Defined.


(** * Further properties of the language detection *)

Lemma py_slice_prefix {A : Type} (a rest : list A) (n : Z) :
  (0 <= n <= Z.of_nat (List.length a))%Z ->
  py_slice (a ++ rest) 0 n = py_slice a 0 n.
Proof.
  intros Hn. unfold py_slice, slice_bound.
  destruct (Z.ltb_spec n 0) as [? | _]; [lia |].
  cbn [Z.ltb Z.compare]. rewrite length_app, Nat2Z.inj_add.
  rewrite !Z.min_l by lia.
  replace (Z.min n (Z.of_nat (List.length a) + Z.of_nat (List.length rest)))
    with n by lia.
  replace (Z.min n (Z.of_nat (List.length a))) with n by lia.
  cbn [Z.to_nat skipn]. rewrite firstn_app.
  replace (Z.to_nat (n - 0) - List.length a)%nat with 0%nat by lia.
  cbn [firstn]. apply app_nil_r.
Qed.

Lemma list_ascii_of_string_app (s t : string) :
  list_ascii_of_string (s ++ t)
  = (list_ascii_of_string s ++ list_ascii_of_string t)%list.
Proof.
  induction s as [| c s IH]; simpl; [| rewrite IH]; reflexivity.
Qed.

Lemma str_slice_brackets (code : string) :
  str_slice ("<|" ++ code ++ "|>") 2 (-2) = code.
Proof.
  unfold str_slice, py_slice, slice_bound.
  cbn [String.append list_ascii_of_string List.length].
  rewrite list_ascii_of_string_app, length_app.
  cbn [list_ascii_of_string List.length].
  set (k := List.length (list_ascii_of_string code)).
  cbn [Z.ltb Z.compare].
  replace (Z.min 2 (Z.of_nat (S (S (k + 2))))) with 2%Z by lia.
  replace (Z.to_nat (Z.max 0 (-2 + Z.of_nat (S (S (k + 2)))) - 2)) with k by lia.
  change (Z.to_nat 2) with 2%nat. cbn [skipn].
  rewrite firstn_app. subst k. rewrite Nat.sub_diag, firstn_all.
  cbn [firstn]. rewrite app_nil_r.
  apply string_of_list_ascii_of_string.
Qed.

Section Detection.

Context {audio_module : AudioModule}.

(** X21: [detect_language] looks at the first 30 seconds only: once the audio
    has [N_SAMPLES] samples, what follows them does not change the
    detected language. *)
Theorem detect_language_first_30s (m : WhisperModel) (a rest : Waveform) :
  (N_SAMPLES <= Z.of_nat (List.length a))%Z ->
  detect_language m (a ++ rest)%list = detect_language m a.
Proof.
  intro Hn. unfold detect_language.
  rewrite py_slice_prefix by (unfold N_SAMPLES, SAMPLE_RATE in *; lia).
  rewrite length_app, Nat2Z.inj_add.
  destruct (Z.leb_spec N_SAMPLES
              (Z.of_nat (List.length a) + Z.of_nat (List.length rest)))
    as [_ | H]; [| lia].
  destruct (Z.leb_spec N_SAMPLES (Z.of_nat (List.length a))) as [_ | H];
    [reflexivity | lia].
Qed.

(** X22: The detected language is the best language token without its
    brackets: the token "<|" + code + "|>" gives [code]. *)
Theorem detect_language_strips_brackets (m : WhisperModel) (a : Waveform)
    (code : string) :
  fst (detect_top m (detection_input m a)) = ("<|" ++ code ++ "|>")%string ->
  detect_language m a = code.
Proof.
  intro H. unfold detect_language. fold (detection_input m a).
  cbv zeta. fold (detection_input m a). rewrite H.
  apply str_slice_brackets.
Qed.

End Detection.

Lemma detect_language_first_30s_witness :
  detect_language (audio_module := Demo.audio_module) Demo.faster
    (repeat 0 (Z.to_nat N_SAMPLES) ++ [1])%list
  = detect_language (audio_module := Demo.audio_module) Demo.faster
      (repeat 0 (Z.to_nat N_SAMPLES)).
Proof.
  apply (detect_language_first_30s (audio_module := Demo.audio_module)
           Demo.faster (repeat 0 (Z.to_nat N_SAMPLES)) [1]).
  rewrite repeat_length, Z2Nat.id; [apply Z.le_refl | discriminate].
Defined.

Lemma detect_language_strips_brackets_witness :
  detect_language (audio_module := Demo.audio_module) Demo.faster Demo.speech
  = "en".
Proof.
  apply (detect_language_strips_brackets (audio_module := Demo.audio_module)
           Demo.faster Demo.speech "en").
  reflexivity.
Defined.

(** * Further properties of the option dictionaries *)



(** [_sanitize_parameters] raises exactly when "tokenizer" is among the
    keyword arguments and "maybe_arg" is not; otherwise the forward and
    postprocess parameters are empty. *)
Lemma sanitize_parameters_cases {V : Type} (kwargs : list (string * V)) :
  ((exists e, _sanitize_parameters kwargs = inl e)
   <-> dict_get kwargs "tokenizer" <> None
       /\ dict_get kwargs "maybe_arg" = None)
  /\ forall pre fwd post,
       _sanitize_parameters kwargs = inr (pre, fwd, post) ->
       fwd = [] /\ post = [].
Proof.
  unfold _sanitize_parameters.
  destruct (dict_get kwargs "tokenizer") as [t |];
    [destruct (dict_get kwargs "maybe_arg") as [v |] |].
  - split.
    + split; [intros [e H]; discriminate | intros [_ H]; discriminate].
    + intros pre fwd post H. inversion H. split; reflexivity.
  - split.
    + split; [intros _; split; [discriminate | reflexivity] |].
      intros _. eexists. reflexivity.
    + intros pre fwd post H. discriminate.
  - split.
    + split; [intros [e H]; discriminate | intros [H _]; contradiction].
    + intros pre fwd post H. inversion H. split; reflexivity.
Qed.


Lemma whisper_branch_keeps_slots_witness :
  snd (transcribe (audio_module := Demo.audio_module) Demo.whisper_pipeline
         (Demo.with_batch_size 2))
  = (map (fun seg =>
            Yield (TextStr (whisper_text (audio_module := Demo.audio_module)
                              Demo.whisper_pipeline Demo.whisper
                              (audio (Demo.with_batch_size 2)) seg)))
         (Demo.vad2 Demo.wave 30)
     ++ [Return
           {| segments :=
                map (fun seg =>
                       output_segment
                         (whisper_text (audio_module := Demo.audio_module)
                            Demo.whisper_pipeline Demo.whisper
                            (audio (Demo.with_batch_size 2)) seg) seg)
                    (Demo.vad2 Demo.wave 30);
              language := Some "vi"%string |}])%list.
Proof.
  apply (whisper_branch_keeps_slots (audio_module := Demo.audio_module)
           Demo.whisper_pipeline Demo.whisper (Demo.with_batch_size 2)).
  - reflexivity.
  - intros _. discriminate.
  - discriminate.
Defined.


(** * The faster-whisper branch without batching *)

Section FasterBranch.

Context {audio_module : AudioModule}.






End FasterBranch.

Section FasterRun.

Context {audio_module : AudioModule}.




End FasterRun.

